(** * pokebase.interface: a shallow embedding and its verified properties

    The module [pokebase/interface.py] maps the JSON served by a remote
    reference-data API to navigable objects: [_make_obj] converts one raw
    value, [name_id_convert] resolves names and ids through a category
    listing, [NamedAPIResource] is the lazily loaded proxy, [APIResourceList]
    wraps a category listing and [APIMetadata] is the eager helper object.

    Conventions of the embedding (the semantics is that of Python 3).
    - Python [str] is [string]: a sequence of code points below 256.
    - Python [int] is [Z].  The interpreter's configurable cap on the length
      of decimal renderings is not part of the model.
    - A Python [dict] with string keys is an association list in insertion
      order; [items()] walks it in that order, and every conversion done
      while walking has effects (calls to the transport layer), so the order
      is kept.  A list is a real dict when its keys are pairwise distinct.
    - Raw JSON ([json]) is what the transport layer hands out; runtime
      values ([value]) add the instances of the two classes of the module.
    - Exceptions are values of [exn]; every call to the transport layer is
      recorded in a trace of [event]s.
    - An instance is its [__dict__]; the private flag [__loaded] lives there
      under its mangled name.  Attribute access follows the interpreter:
      data descriptors of the class, the instance dictionary, the other
      names of the class, and [__getattr__] as the fallback. *)

From Stdlib Require Import String Ascii List ZArith Lia Bool Arith.
From Stdlib Require Import SpecFloat.
From Stdlib Require Decimal DecimalString DecimalZ.
Import ListNotations.

Open Scope string_scope.
Open Scope list_scope.

Set Implicit Arguments.

(** ** Builtins on strings *)

Definition slash : ascii := "/"%char.

(** [s.split(sep)] for a one-character separator: never empty, one more
    segment than there are separators. *)
Fixpoint split (sep : ascii) (s : string) : list string :=
  match s with
  | EmptyString => [EmptyString]
  | String c rest =>
      if Ascii.eqb c sep then EmptyString :: split sep rest
      else match split sep rest with
           | [] => [String c EmptyString]
           | seg :: segs => String c seg :: segs
           end
  end.

(** [sep.join(parts)]. *)
Definition join (sep : string) (parts : list string) : string :=
  String.concat sep parts.

(** [str(n)] for an integer. *)
Definition str_int (z : Z) : string := DecimalString.NilZero.string_of_int (Z.to_int z).

(** Characters that [int] skips around a numeral: tab, line feed, vertical
    tab, form feed, carriage return, space, and the two Latin-1 spaces
    U+0085 and U+00A0. *)
Definition is_space (c : ascii) : bool :=
  let n := nat_of_ascii c in
  (((9 <=? n) && (n <=? 13)) || (n =? 32) || (n =? 133) || (n =? 160))%nat.

Definition is_digit (c : ascii) : bool :=
  let n := nat_of_ascii c in ((48 <=? n) && (n <=? 57))%nat.

Fixpoint lstrip (s : string) : string :=
  match s with
  | String c rest => if is_space c then lstrip rest else s
  | EmptyString => EmptyString
  end.

Fixpoint rstrip (s : string) : string :=
  match s with
  | EmptyString => EmptyString
  | String c rest =>
      match rstrip rest with
      | EmptyString => if is_space c then EmptyString else String c EmptyString
      | rest' => String c rest'
      end
  end.

(** Digits with single underscores between them; the underscores are
    dropped.  [prev] tells whether the previous character was a digit. *)
Fixpoint digit_groups (prev : bool) (s : string) : option string :=
  match s with
  | EmptyString => if prev then Some EmptyString else None
  | String c rest =>
      if is_digit c then option_map (String c) (digit_groups true rest)
      else if Ascii.eqb c "_"%char then
             if prev then digit_groups false rest else None
           else None
  end.

Definition unsigned_numeral (s : string) : option Z :=
  match digit_groups false s with
  | Some ds => option_map Z.of_uint (DecimalString.NilEmpty.uint_of_string ds)
  | None => None
  end.

(** [int(s)] in base ten; [None] stands for [ValueError]. *)
Definition parse_int (s : string) : option Z :=
  match rstrip (lstrip s) with
  | String "-"%char rest => option_map Z.opp (unsigned_numeral rest)
  | String "+"%char rest => unsigned_numeral rest
  | body => unsigned_numeral body
  end.

(** Sequence indexing with a negative index [-k], [k >= 1]. *)
Definition index_from_end {A : Type} (l : list A) (k : nat) : option A :=
  nth_error (List.rev l) (pred k).

(** ** Data *)

Scheme All for list.
Scheme All for prod.

(** Raw JSON, as decoded by the transport layer. *)
Inductive json : Type :=
| JNull
| JBool (b : bool)
| JInt (z : Z)
| JFloat (f : spec_float)
| JStr (s : string)
| JList (l : list json)
| JDict (d : list (string * json)).

(** Runtime values: JSON values, instances of [NamedAPIResource] and of
    [APIMetadata] (each given by its instance dictionary), and whatever an
    attribute found on a class evaluates to, which stays opaque. *)
Inductive value : Type :=
| VNone
| VBool (b : bool)
| VInt (z : Z)
| VFloat (f : spec_float)
| VStr (s : string)
| VList (l : list value)
| VDict (d : list (string * value))
| VResource (d : list (string * value))
| VMeta (d : list (string * value))
| VClassAttr (name : string).

Definition dict (V : Type) : Type := list (string * V).

Section Dict.
Variable V : Type.

Fixpoint dict_get (k : string) (d : dict V) : option V :=
  match d with
  | [] => None
  | (k', v) :: rest => if String.eqb k k' then Some v else dict_get k rest
  end.

Definition dict_has (k : string) (d : dict V) : bool :=
  match dict_get k d with Some _ => true | None => false end.

(** [d[k] = v]: the entry keeps its place when the key exists and goes to
    the end otherwise. *)
Fixpoint dict_set (k : string) (v : V) (d : dict V) : dict V :=
  match d with
  | [] => [(k, v)]
  | (k', v') :: rest =>
      if String.eqb k k' then (k', v) :: rest else (k', v') :: dict_set k v rest
  end.

(** [d.update(other)]. *)
Definition dict_update (d other : dict V) : dict V :=
  fold_left (fun acc kv => dict_set (fst kv) (snd kv) acc) other d.

Definition keys (d : dict V) : list string := map fst d.
End Dict.

(** A raw JSON value seen as a runtime value. *)
Fixpoint of_json (j : json) : value :=
  match j with
  | JNull => VNone
  | JBool b => VBool b
  | JInt z => VInt z
  | JFloat f => VFloat f
  | JStr s => VStr s
  | JList l => VList (map of_json l)
  | JDict d => VDict (map (fun kv => (fst kv, of_json (snd kv))) d)
  end.

Definition of_json_dict (d : dict json) : dict value :=
  map (fun kv => (fst kv, of_json (snd kv))) d.

Definition type_name (j : json) : string :=
  match j with
  | JNull => "NoneType"
  | JBool _ => "bool"
  | JInt _ => "int"
  | JFloat _ => "float"
  | JStr _ => "str"
  | JList _ => "list"
  | JDict _ => "dict"
  end.

(** Truth value testing.  Instances of the two classes define neither
    [__bool__] nor [__len__], so they are true. *)
Definition truthy (v : value) : bool :=
  match v with
  | VNone => false
  | VBool b => b
  | VInt z => negb (Z.eqb z 0)
  | VFloat (S754_zero _) => false
  | VFloat _ => true
  | VStr s => negb (String.eqb s "")
  | VList l => match l with [] => false | _ => true end
  | VDict d => match d with [] => false | _ => true end
  | VResource _ | VMeta _ | VClassAttr _ => true
  end.

(** [str(v)] on the values an id can be; [None] elsewhere (floats,
    containers and instances are not rendered by this model). *)
Definition py_str (v : value) : option string :=
  match v with
  | VNone => Some "None"
  | VBool b => Some (if b then "True" else "False")
  | VInt z => Some (str_int z)
  | VStr s => Some s
  | _ => None
  end.

(** ** Exceptions, events and the computation type *)

(** The exceptions that the module can meet.  [NotRendered] is not one of
    Python's: it marks [str] applied outside the fragment that [py_str]
    renders, which the module never does ([name_id_convert_rendered]).
    [TransportError] stands for whatever the transport layer raises. *)
Inductive exn : Type :=
| KeyError (key : string)
| IndexError
| TypeError
| ValueError
| AttributeError (msg : string)
| UnboundLocalError (var : string)
| RecursionError
| OverflowError
| NotRendered
| TransportError (msg : string).

(** Calls to the two functions of the transport layer. *)
Inductive event : Type :=
| Call_get_resource (name : string)
| Call_get_data (resource_type id_ : value).

Definition trace : Type := list event.

(** A computation yields an exception or a result, and the calls it made. *)
Definition M (A : Type) : Type := (exn + A) * trace.

Definition ret {A : Type} (a : A) : M A := (inr a, []).
Definition raise {A : Type} (e : exn) : M A := (inl e, []).

Definition bind {A B : Type} (m : M A) (k : A -> M B) : M B :=
  match m with
  | (inl e, t) => (inl e, t)
  | (inr a, t) => match k a with (r, t') => (r, t ++ t') end
  end.

Notation "x <- m ;; k" := (bind m (fun x => k))
  (at level 61, m at next level, right associativity).

Definition result {A : Type} (m : M A) : exn + A := fst m.
Definition calls {A : Type} (m : M A) : trace := snd m.

Definition or_raise {A : Type} (o : option A) (e : exn) : M A :=
  match o with Some a => ret a | None => raise e end.

Fixpoint mapM {A B : Type} (f : A -> M B) (l : list A) : M (list B) :=
  match l with
  | [] => ret []
  | a :: rest => b <- f a ;; bs <- mapM f rest ;; ret (b :: bs)
  end.

(** ** Operations on raw JSON values *)

(** [j[key]] with a string key: only a dict accepts it. *)
Definition getitem (j : json) (key : string) : M json :=
  match j with
  | JDict d => or_raise (dict_get key d) (KeyError key)
  | _ => raise TypeError
  end.

Definition no_attribute (j : json) (attr : string) : exn :=
  AttributeError ("'" ++ type_name j ++ "' object has no attribute '" ++ attr ++ "'").

(** [j.get(key, default)]: only a dict has the method. *)
Definition get_method (j : json) (key : string) (default : json) : M json :=
  match j with
  | JDict d => ret (match dict_get key d with Some v => v | None => default end)
  | _ => raise (no_attribute j "get")
  end.

(** [j.split('/')]: only a string has the method. *)
Definition split_method (j : json) : M (list string) :=
  match j with
  | JStr s => ret (split slash s)
  | _ => raise (no_attribute j "split")
  end.

(** [j.items()]: only a dict has the method. *)
Definition items_method (j : json) : M (dict json) :=
  match j with
  | JDict d => ret d
  | _ => raise (no_attribute j "items")
  end.

(** [segs[-k]]. *)
Definition item_from_end (segs : list string) (k : nat) : M string :=
  or_raise (index_from_end segs k) IndexError.

(** [[i for i in j]]: a list gives its elements, a string its characters,
    a dict its keys; nothing else is iterable. *)
Definition iterate (j : json) : M (list json) :=
  match j with
  | JList l => ret l
  | JStr s => ret (map (fun c => JStr (String c EmptyString)) (list_ascii_of_string s))
  | JDict d => ret (map (fun kv => JStr (fst kv)) d)
  | _ => raise TypeError
  end.

(** [j == s] for a Python string [s]. *)
Definition eq_str (j : json) (s : string) : bool :=
  match j with
  | JStr s' => String.eqb s' s
  | _ => false
  end.

(** [int(s)]. *)
Definition int_ (s : string) : M Z := or_raise (parse_int s) ValueError.

(** [str(v)]. *)
Definition str_ (v : value) : M string := or_raise (py_str v) NotRendered.

(** [len(x)] from what [x.__len__()] returned: an integer (booleans
    included) that is not negative and fits a machine word. *)
Definition len_of (n : json) : M Z :=
  let check (z : Z) : M Z :=
    if (z <? 0)%Z then raise ValueError
    else if (z <? 2 ^ 63)%Z then ret z else raise OverflowError in
  match n with
  | JInt z => check z
  | JBool b => check (if b then 1%Z else 0%Z)
  | _ => raise TypeError
  end.

(** ** Methods: computations over the instance dictionary of [self]

    A method gets the instance dictionary, and gives back its outcome, the
    instance dictionary as the method left it (also when it raised) and the
    calls it made. *)

Definition Obj (A : Type) : Type :=
  dict value -> (exn + A) * dict value * trace.

Definition obj_ret {A : Type} (a : A) : Obj A :=
  fun self => (inr a, self, []).

Definition obj_raise {A : Type} (e : exn) : Obj A :=
  fun self => (inl e, self, []).

Definition obj_bind {A B : Type} (m : Obj A) (k : A -> Obj B) : Obj B :=
  fun self =>
    match m self with
    | (inl e, self', t) => (inl e, self', t)
    | (inr a, self', t) =>
        match k a self' with (r, self'', t') => (r, self'', t ++ t') end
    end.

Notation "x <~ m ;; k" := (obj_bind m (fun x => k))
  (at level 61, m at next level, right associativity).

(** A computation that does not touch [self]. *)
Definition lift {A : Type} (m : M A) : Obj A :=
  fun self => (fst m, self, snd m).

(** An assignment to [self.__dict__]. *)
Definition modify (f : dict value -> dict value) : Obj unit :=
  fun self => (inr tt, f self, []).

(** Instantiation: [__init__] runs on a fresh instance, which is the value
    of the call unless [__init__] raised. *)
Definition new (mk : dict value -> value) (init : Obj unit) : M value :=
  match init [] with
  | (inl e, _, t) => (inl e, t)
  | (inr _, self, t) => (inr (mk self), t)
  end.

(** What a generator handed out, and the exception that ended it, if any. *)
Record generated (A : Type) : Type :=
  { yielded : list A; stopped : option exn }.

Fixpoint generate {A B : Type} (f : A -> M B) (l : list A) : generated B :=
  match l with
  | [] => {| yielded := []; stopped := None |}
  | a :: rest =>
      match result (f a) with
      | inl e => {| yielded := []; stopped := Some e |}
      | inr b =>
          let g := generate f rest in
          {| yielded := b :: yielded g; stopped := stopped g |}
      end
  end.

(** The private attribute [__loaded], under its mangled name. *)
Definition __loaded : string := "_NamedAPIResource__loaded".

(** Names that the class resolves before the instance dictionary does. *)
Definition data_descriptors : list string :=
  ["__class__"; "__dict__"; "__weakref__"].

(** The other names found on [NamedAPIResource] or on [object]. *)
Definition class_namespace : list string :=
  ["__init__"; "__getattr__"; "__str__"; "__repr__"; "_load";
   "__module__"; "__doc__";
   "__delattr__"; "__dir__"; "__eq__"; "__format__"; "__ge__";
   "__getattribute__"; "__getstate__"; "__gt__"; "__hash__";
   "__init_subclass__"; "__le__"; "__lt__"; "__ne__"; "__new__";
   "__reduce__"; "__reduce_ex__"; "__setattr__"; "__sizeof__";
   "__subclasshook__"].

Definition mem (s : string) (l : list string) : bool :=
  existsb (String.eqb s) l.

(** The message of the [AttributeError] that [__getattr__] raises itself. *)
Definition no_attribute_message (attr : string) : string :=
  "<class 'pokebase.interface.NamedAPIResource'> object has no attribute " ++ attr.

(** The message of the [AttributeError] of the normal lookup. *)
Definition lookup_message (attr : string) : string :=
  "'NamedAPIResource' object has no attribute '" ++ attr ++ "'".

(** [object.__getattribute__(self, attr)] on an instance of
    [NamedAPIResource]. *)
Definition __getattribute__ (self : dict value) (attr : string) : exn + value :=
  if mem attr data_descriptors then inr (VClassAttr attr)
  else match dict_get attr self with
       | Some v => inr v
       | None =>
           if mem attr class_namespace then inr (VClassAttr attr)
           else inl (AttributeError (lookup_message attr))
       end.

(** A method called on [self] is looked up like any attribute: a function
    of the class gives way to an entry of the instance dictionary with its
    name, and no value that such an entry can hold is callable. *)
Definition method_of {A : Type} (name : string) (method : Obj A) : Obj A :=
  fun self =>
    match dict_get name self with
    | Some _ => (inl TypeError, self, [])
    | None => method self
    end.

(** [self.attr] inside a method, for an instance attribute.  When the
    dictionary lacks it the lookup enters [__getattr__], which reads
    [self.__loaded] and, on an instance that is not loaded, calls
    [self._load()], which reads the attribute again: the interpreter gives
    up with [RecursionError].  On a loaded instance [__getattr__] raises. *)
Definition self_attr (attr : string) : Obj value :=
  fun self =>
    match dict_get attr self with
    | Some v => (inr v, self, [])
    | None =>
        match dict_get __loaded self with
        | Some flag =>
            if truthy flag
            then (inl (AttributeError (no_attribute_message attr)), self, [])
            else method_of "_load" (obj_raise RecursionError) self
        | None => (inl RecursionError, self, [])
        end
    end.

(** The collaborators imported from [pokebase/api.py] and
    [pokebase/common.py]: the two fetch functions, each answering with a
    decoded JSON document or an exception, and the base url. *)
Record transport : Type :=
  { get_resource : string -> exn + json;
    get_data : value -> value -> exn + json;
    BASE_URL : string }.

Section Interface.

Variable api : transport.

Definition call_get_resource (name : string) : M json :=
  (get_resource api name, [Call_get_resource name]).

Definition call_get_data (resource_type id_ : value) : M json :=
  (get_data api resource_type id_, [Call_get_data resource_type id_]).

(** *** APIResourceList *)

Record listing : Type :=
  { listing_name : string; results : list json; count : json }.

(** [APIResourceList(name)]. *)
Definition APIResourceList (name : string) : M listing :=
  response <- call_get_resource name ;;
  raw <- getitem response "results" ;;
  entries <- iterate raw ;;
  n <- getitem response "count" ;;
  ret {| listing_name := name; results := entries; count := n |}.

Definition __len__ (self : listing) : json := count self.

Definition __iter__ (self : listing) : list json := results self.

(** [len(self)]. *)
Definition len (self : listing) : M Z := len_of (__len__ self).

(** One step of [names]: [result.get('name', result['url'].split('/')[-2])].
    The method is looked up first, then the default is evaluated, then
    the method is called. *)
Definition names_item (result : json) : M json :=
  match result with
  | JDict _ =>
      url <- getitem result "url" ;;
      segs <- split_method url ;;
      seg <- item_from_end segs 2 ;;
      get_method result "name" (JStr seg)
  | _ => raise (no_attribute result "get")
  end.

Definition names (self : listing) : generated json :=
  generate names_item (results self).

Definition urls (self : listing) : generated json :=
  generate (fun result => getitem result "url") (results self).

(** [APIResourceList.__str__] renders the list of entries with [repr],
    escapes and floating-point digits included: it is left out. *)

(** *** The resolver *)

(** The loop of [_convert_id_to_name]; falling off its end returns
    [None]. *)
Fixpoint _convert_id_to_name_loop (resource_data : list json) (id_ : value)
  : M value :=
  match resource_data with
  | [] => ret VNone
  | resource :: rest =>
      url <- getitem resource "url" ;;
      segs <- split_method url ;;
      seg <- item_from_end segs 2 ;;
      s <- str_ id_ ;;
      if String.eqb seg s
      then name <- get_method resource "name" JNull ;; ret (of_json name)
      else _convert_id_to_name_loop rest id_
  end.

Definition _convert_id_to_name (resouce_type : string) (id_ : value) : M value :=
  resource_data <- APIResourceList resouce_type ;;
  _convert_id_to_name_loop (__iter__ resource_data) id_.

(** The loop of [_convert_name_to_id]; falling off its end returns
    [None]. *)
Fixpoint _convert_name_to_id_loop (resource_data : list json) (name : string)
  : M value :=
  match resource_data with
  | [] => ret VNone
  | resource :: rest =>
      n <- get_method resource "name" JNull ;;
      if eq_str n name
      then url <- get_method resource "url" JNull ;;
           segs <- split_method url ;;
           seg <- item_from_end segs 2 ;;
           z <- int_ seg ;;
           ret (VInt z)
      else _convert_name_to_id_loop rest name
  end.

Definition _convert_name_to_id (resource_type : string) (name : string) : M value :=
  resource_data <- APIResourceList resource_type ;;
  _convert_name_to_id_loop (__iter__ resource_data) name.

(** [isinstance(name_or_id, int)] holds for booleans too; a value that is
    neither an integer nor a string leaves [name] unbound. *)
Definition name_id_convert (resource_type : string) (name_or_id : value)
  : M (value * value) :=
  match name_or_id with
  | VInt _ | VBool _ =>
      name <- _convert_id_to_name resource_type name_or_id ;;
      ret (name, name_or_id)
  | VStr s =>
      id_ <- _convert_name_to_id resource_type s ;;
      ret (name_or_id, id_)
  | _ => raise (UnboundLocalError "name")
  end.

(** *** NamedAPIResource, up to the end of its lazy construction *)

(** Lines 79 to 87 of [__init__]: everything before [if not lazy_load]. *)
Definition __init__fields (resource_type : string) (resource_name : value)
  : Obj unit :=
  pair <~ lift (name_id_convert resource_type resource_name) ;;
  s <~ lift (str_ (snd pair)) ;;
  let url := join "/" [BASE_URL api; resource_type; s] in
  _ <~ modify (fun self =>
                 dict_update self [("name", fst pair);
                                   ("resource_type", VStr resource_type);
                                   ("id_", snd pair);
                                   ("url", VStr url)]) ;;
  modify (dict_set __loaded (VBool false)).

(** [NamedAPIResource(resource_type, resource_name, lazy_load=True)]. *)
Definition NamedAPIResource_lazy (resource_type : string) (resource_name : value)
  : M value :=
  new VResource (__init__fields resource_type resource_name).

(** *** The value converter and APIMetadata *)

Section Loops.
Variable convert : json -> M value.

(** The loop of [APIMetadata.__init__] over [data.items()]: a field
    that is a dict is replaced in [data], any other is left alone. *)
Fixpoint APIMetadata_loop (items : dict json) (data : dict value)
  : M (dict value) :=
  match items with
  | [] => ret data
  | (k, v) :: rest =>
      match v with
      | JDict _ =>
          x <- convert v ;;
          APIMetadata_loop rest (dict_set k x data)
      | _ => APIMetadata_loop rest data
      end
  end.

(** The loop of [_load] over [data.items()]: a dict is replaced by its
    conversion, a list by the list of the conversions of its items. *)
Fixpoint _load_loop (items : dict json) (data : dict value)
  : M (dict value) :=
  match items with
  | [] => ret data
  | (k, v) :: rest =>
      match v with
      | JDict _ =>
          x <- convert v ;;
          _load_loop rest (dict_set k x data)
      | JList l =>
          xs <- mapM convert l ;;
          _load_loop rest (dict_set k (VList xs) data)
      | _ => _load_loop rest data
      end
  end.
End Loops.

Fixpoint _make_obj (d : json) : M value :=
  match d with
  | JDict kvs =>
      if dict_has "url" kvs then
        url <- getitem d "url" ;;
        segs <- split_method url ;;
        id_ <- item_from_end segs 2 ;;
        segs' <- split_method url ;;
        location <- item_from_end segs' 3 ;;
        NamedAPIResource_lazy location (VStr id_)
      else
        data <- APIMetadata_loop _make_obj kvs (of_json_dict kvs) ;;
        new VMeta (modify (fun self => dict_update self data))
  | _ => ret (of_json d)
  end.

(** [APIMetadata(data)]. *)
Definition APIMetadata (data : dict json) : M value :=
  data' <- APIMetadata_loop _make_obj data (of_json_dict data) ;;
  new VMeta (modify (fun self => dict_update self data')).

(** *** NamedAPIResource: loading and attribute access *)

Definition _load : Obj unit :=
  resource_type <~ self_attr "resource_type" ;;
  id_ <~ self_attr "id_" ;;
  data <~ lift (call_get_data resource_type id_) ;;
  items <~ lift (items_method data) ;;
  data' <~ lift (_load_loop _make_obj items (of_json_dict items)) ;;
  modify (fun self => dict_update self data').

Definition __init__ (resource_type : string) (resource_name : value)
  (lazy_load : bool) : Obj unit :=
  _ <~ __init__fields resource_type resource_name ;;
  if negb lazy_load
  then _ <~ method_of "_load" _load ;; modify (dict_set __loaded (VBool true))
  else obj_ret tt.

(** [NamedAPIResource(resource_type, resource_name, lazy_load)]. *)
Definition NamedAPIResource (resource_type : string) (resource_name : value)
  (lazy_load : bool) : M value :=
  new VResource (__init__ resource_type resource_name lazy_load).

Definition __getattr__ (attr : string) : Obj value :=
  loaded <~ self_attr __loaded ;;
  if negb (truthy loaded)
  then _ <~ method_of "_load" _load ;;
       _ <~ modify (dict_set __loaded (VBool true)) ;;
       method_of "__getattribute__"
         (fun self => (__getattribute__ self attr, self, []))
  else obj_raise (AttributeError (no_attribute_message attr)).

(** [self.attr] as the interpreter evaluates it: [__getattr__] is the
    fallback when the normal lookup raises [AttributeError]. *)
Definition getattr (attr : string) : Obj value :=
  fun self =>
    match __getattribute__ self attr with
    | inr v => (inr v, self, [])
    | inl _ => __getattr__ attr self
    end.

(** A run of attribute accesses on one instance, outcomes in order. *)
Fixpoint accesses (attrs : list string) (self : dict value)
  : list (exn + value) * dict value * trace :=
  match attrs with
  | [] => ([], self, [])
  | attr :: rest =>
      match getattr attr self with
      | (r, self', t) =>
          match accesses rest self' with
          | (rs, self'', t') => (r :: rs, self'', t ++ t')
          end
      end
  end.

End Interface.


(** ** NamedAPIResource: string and display conversion *)

Section Rendering.

Variable api : transport.

(** [str(self)]: [str(self.name)], the name being reached by an ordinary
    attribute access. *)
Definition __str__ : Obj string :=
  name <~ getattr api "name" ;;
  lift (str_ name).

(** [repr(self)]: ['<{}-{}>'.format(self.resource_type, self.name)]; an
    empty replacement field renders a string, an integer, a boolean or
    [None] as [str] does. *)
Definition __repr__ : Obj string :=
  resource_type <~ getattr api "resource_type" ;;
  name <~ getattr api "name" ;;
  a <~ lift (str_ resource_type) ;;
  b <~ lift (str_ name) ;;
  obj_ret ("<" ++ a ++ "-" ++ b ++ ">")%string.

End Rendering.

(** ** Shapes of the data the properties speak about *)

Definition isinstance_dict (j : json) : bool :=
  match j with JDict _ => true | _ => false end.

Definition raises {A : Type} (m : M A) : Prop := exists e, result m = inl e.

(** The text [msg] contains [part]. *)
Definition mentions (msg part : string) : Prop :=
  exists before after, msg = (before ++ part ++ after)%string.

Fixpoint free_of (sep : ascii) (s : string) : bool :=
  match s with
  | EmptyString => true
  | String c rest => negb (Ascii.eqb c sep) && free_of sep rest
  end.

(** A url that ends in [/<category>/<id>/]. *)
Definition reference_url (pre category id : string) : string :=
  (pre ++ String slash (category ++ String slash (id ++ String slash EmptyString)))%string.

Fixpoint all_digits (s : string) : bool :=
  match s with
  | EmptyString => true
  | String c rest => is_digit c && all_digits rest
  end.

(** The transport layer serves, for [category], a listing with these
    entries and this count. *)
Definition serves (api : transport) (category : string)
  (entries : list json) (n : json) : Prop :=
  exists r,
    get_resource api category = inr (JDict r) /\
    dict_get "results" r = Some (JList entries) /\
    dict_get "count" r = Some n.

(** The id segment of a listed entry: the last but one piece of its url. *)
Definition id_segment (e : json) : option string :=
  match e with
  | JDict d =>
      match dict_get "url" d with
      | Some (JStr u) => index_from_end (split slash u) 2
      | _ => None
      end
  | _ => None
  end.

Definition entry_name (e : json) : option json :=
  match e with
  | JDict d => dict_get "name" d
  | _ => None
  end.

(** The name a listing shows for an entry: its [name] field if it has one,
    else its id segment. *)
Definition listed_name (e : json) : option json :=
  match entry_name e with
  | Some n => Some n
  | None => option_map JStr (id_segment e)
  end.

(** Field by field, what each of the two constructions does to a raw dict:
    [APIMetadata] converts the dicts only, the load converts the dicts and
    the items of the lists. *)
Definition metadata_field (convert : json -> M value) (v : json) : M value :=
  match v with
  | JDict _ => convert v
  | _ => ret (of_json v)
  end.

Definition loaded_field (convert : json -> M value) (v : json) : M value :=
  match v with
  | JDict _ => convert v
  | JList l => xs <- mapM convert l ;; ret (VList xs)
  | _ => ret (of_json v)
  end.

Fixpoint map_fields (f : json -> M value) (d : dict json) : M (dict value) :=
  match d with
  | [] => ret []
  | (k, v) :: rest =>
      x <- f v ;; xs <- map_fields f rest ;; ret ((k, x) :: xs)
  end.

(** The instance dictionary right after a lazy construction. *)
Definition fresh_instance (api : transport) (resource_type : string)
  (name id_ : value) (rendered : string) : dict value :=
  [("name", name);
   ("resource_type", VStr resource_type);
   ("id_", id_);
   ("url", VStr (join "/" [BASE_URL api; resource_type; rendered]));
   (__loaded, VBool false)].

Definition is_get_data (e : event) : bool :=
  match e with Call_get_data _ _ => true | Call_get_resource _ => false end.

(** How often a trace calls [get_data]. *)
Definition get_data_calls (t : trace) : nat := length (filter is_get_data t).

(** A trace without a call of [get_data]. *)
Definition quiet (t : trace) : Prop := Forall (fun ev => is_get_data ev = false) t.

(** Names that the class answers for: an access to one of them is not an
    access to a field of the payload. *)
Definition resolved_by_class (attr : string) : bool :=
  mem attr data_descriptors || mem attr class_namespace.

(** A method that never changes [self]. *)
Definition reads {A : Type} (m : Obj A) : Prop :=
  forall self r self' t, m self = (r, self', t) -> self' = self.

(** A method that leaves [self] as it found it whenever it raises. *)
Definition fails_clean {A : Type} (m : Obj A) : Prop :=
  forall self e self' t, m self = (inl e, self', t) -> self' = self.

(** A raw value in which no dict that the converter reaches has a [url]:
    the converter enters the fields of a dict that are dicts, and nothing
    else. *)
Fixpoint reference_free (j : json) : bool :=
  match j with
  | JDict kvs =>
      negb (dict_has "url" kvs)
      && forallb (fun kv => reference_free (snd kv)) kvs
  | _ => true
  end.

(** A runtime value in which every instance of [NamedAPIResource] has its
    flag [False]. *)
Fixpoint unloaded_refs (v : value) : bool :=
  match v with
  | VList l => forallb unloaded_refs l
  | VDict d => forallb (fun kv => unloaded_refs (snd kv)) d
  | VMeta d => forallb (fun kv => unloaded_refs (snd kv)) d
  | VResource d =>
      match dict_get __loaded d with
      | Some (VBool false) => forallb (fun kv => unloaded_refs (snd kv)) d
      | _ => false
      end
  | _ => true
  end.

(** What the resolver accepts: [isinstance(v, int)], true of booleans too,
    or [isinstance(v, str)]. *)
Definition resolvable (v : value) : bool :=
  match v with VInt _ | VBool _ | VStr _ => true | _ => false end.

(** A computation that calls nobody. *)
Definition silent {A : Type} (m : M A) : Prop := calls m = [].

(** The number of pieces of a url. *)
Definition segments (u : string) : nat := length (split slash u).

(** ** A concrete transport layer: the berries *)

Definition entry (name url : string) : json :=
  JDict [("name", JStr name); ("url", JStr url)].

Definition berry_listing : json :=
  JDict [("count", JInt 2);
         ("results",
          JList [entry "cheri" "http://pokeapi.co/api/v2/berry/1/";
                 entry "chesto" "http://pokeapi.co/api/v2/berry/2/"])].

Definition firmness_listing : json :=
  JDict [("count", JInt 5);
         ("results",
          JList [entry "very-soft" "http://pokeapi.co/api/v2/berry-firmness/1/";
                 entry "soft" "http://pokeapi.co/api/v2/berry-firmness/2/"])].

Definition soft_reference : json :=
  entry "soft" "http://pokeapi.co/api/v2/berry-firmness/2/".

Definition cheri_payload : json :=
  JDict [("name", JStr "cheri");
         ("firmness", soft_reference);
         ("flavors", JList [JInt 1; JInt 2; JInt 3]);
         ("natural_gift_power", JInt 60)].

(** A payload whose second reference has a url too short to be split. *)
Definition broken_payload : json :=
  JDict [("firmness", soft_reference);
         ("item", JDict [("url", JStr "nowhere")])].

(** A payload with a reference as a field and references in a list. *)
Definition mixed_fields : dict json :=
  [("firmness", soft_reference);
   ("flavors", JList [soft_reference; JInt 3])].

Definition demo : transport :=
  {| get_resource := fun name =>
       if String.eqb name "berry" then inr berry_listing
       else if String.eqb name "berry-firmness" then inr firmness_listing
       else inl (TransportError "404");
     get_data := fun resource_type id_ =>
       match resource_type, id_ with
       | VStr "berry", VInt 1 => inr cheri_payload
       | VStr "berry", VInt 2 => inr broken_payload
       | VStr "berry", VInt 3 => inr (JDict mixed_fields)
       | _, _ => inl (TransportError "404")
       end;
     BASE_URL := "http://pokeapi.co/api/v2" |}.

(** A transport layer whose berry listing starts with an entry that has
    no url, and that serves payloads for no one. *)
Definition gappy_entries : list json :=
  [JDict [("name", JStr "cheri")];
   entry "chesto" "http://pokeapi.co/api/v2/berry/2/"].

Definition gappy : transport :=
  {| get_resource := fun name =>
       inr (JDict [("count", JInt 2); ("results", JList gappy_entries)]);
     get_data := fun _ _ => inl (TransportError "503");
     BASE_URL := "http://pokeapi.co/api/v2" |}.

(** What the reference to the soft firmness is converted to. *)
Definition soft_instance : value :=
  VResource (fresh_instance demo "berry-firmness" (VStr "2") VNone "None").

(** Lazily constructed berries, as the resolver fills them in. *)
Definition berry_instance (name : string) (id_ : Z) : dict value :=
  fresh_instance demo "berry" (VStr name) (VInt id_) (str_int id_).

(** * Properties *)

Unset Implicit Arguments.

Example split_url :
  split slash "a/b//c/" = ["a"; "b"; ""; "c"; ""].
Proof. reflexivity. Qed.

Example parse_int_samples :
  map parse_int [" 12 "; "-0"; "1_000"; "00012"; "+7"; "_1"; "1__0"; "- 1"; ""; "1 2"]
  = [Some 12%Z; Some 0%Z; Some 1000%Z; Some 12%Z; Some 7%Z; None; None; None; None; None].
Proof. reflexivity. Qed.

Example str_int_samples :
  map str_int [0%Z; 12%Z; (-305)%Z] = ["0"; "12"; "-305"].
Proof. reflexivity. Qed.

(** The resolver on the berries. *)
Example resolve_berries :
  map (fun x => result (name_id_convert demo "berry" x))
    [VStr "chesto"; VInt 1; VInt 99; VBool true; VNone]
  = [inr (VStr "chesto", VInt 2);
     inr (VStr "cheri", VInt 1);
     inr (VNone, VInt 99);
     inr (VNone, VBool true);
     inl (UnboundLocalError "name")].
Proof. reflexivity. Qed.

(** An eager construction of the berry [cheri]: the payload is merged onto
    the construction fields, the list of numbers is as it was. *)
Example eager_cheri :
  NamedAPIResource demo "berry" (VInt 1) false
  = (inr (VResource
            [("name", VStr "cheri");
             ("resource_type", VStr "berry");
             ("id_", VInt 1);
             ("url", VStr "http://pokeapi.co/api/v2/berry/1");
             (__loaded, VBool true);
             ("firmness", soft_instance);
             ("flavors", VList [VInt 1; VInt 2; VInt 3]);
             ("natural_gift_power", VInt 60)]),
     [Call_get_resource "berry";
      Call_get_data (VStr "berry") (VInt 1);
      Call_get_resource "berry-firmness"]).
Proof. reflexivity. Qed.

(** [names] evaluates the default before it asks for the name: an entry
    without a url ends the sequence. *)
Example names_needs_urls :
  generate names_item
    [entry "cheri" "http://pokeapi.co/api/v2/berry/1/";
     JDict [("name", JStr "chesto")]]
  = {| yielded := [JStr "cheri"]; stopped := Some (KeyError "url") |}.
Proof. reflexivity. Qed.

(** ** Strings *)

Lemma split_nonempty (sep : ascii) (s : string) : split sep s <> [].
Proof.
  destruct s as [|c s]; simpl; [discriminate|].
  destruct (Ascii.eqb c sep); [discriminate|].
  destruct (split sep s); discriminate.
Qed.

(** Cutting at one separator cuts the list of segments in two. *)
Lemma split_app (sep : ascii) (a b : string) :
  split sep (a ++ String sep b)%string = split sep a ++ split sep b.
Proof.
  induction a as [|c a IH]; simpl.
  - now rewrite Ascii.eqb_refl.
  - destruct (Ascii.eqb c sep); [now rewrite IH|].
    rewrite IH.
    destruct (split sep a) as [|seg segs] eqn:E; [|reflexivity].
    now apply split_nonempty in E.
Qed.

Lemma split_free (sep : ascii) (s : string) :
  free_of sep s = true -> split sep s = [s].
Proof.
  induction s as [|c s IH]; simpl; [reflexivity|].
  destruct (Ascii.eqb c sep); simpl; [discriminate|].
  intros H. now rewrite (IH H).
Qed.

Lemma index_from_end_app {A : Type} (pre : list A) (a b c : A) :
  index_from_end (pre ++ [a; b; c]) 2 = Some b /\
  index_from_end (pre ++ [a; b; c]) 3 = Some a.
Proof.
  unfold index_from_end. rewrite rev_app_distr. simpl. now split.
Qed.

Lemma split_reference_url (pre category id : string) :
  free_of slash category = true -> free_of slash id = true ->
  exists segs, split slash (reference_url pre category id) = segs ++ [category; id; ""].
Proof.
  intros Hc Hi. unfold reference_url.
  rewrite !split_app, (split_free _ _ Hc), (split_free _ _ Hi). simpl.
  now exists (split slash pre).
Qed.

(** *** Decimal numerals *)

Lemma string_of_uint_digits (u : Decimal.uint) :
  all_digits (DecimalString.NilEmpty.string_of_uint u) = true.
Proof. induction u; simpl; auto. Qed.

Lemma digit_not_space (c : ascii) : is_digit c = true -> is_space c = false.
Proof.
  unfold is_digit, is_space. intros H.
  apply andb_true_iff in H as [H1 H2].
  apply Nat.leb_le in H1. apply Nat.leb_le in H2.
  repeat (apply orb_false_iff; split);
    try apply andb_false_iff; try (apply Nat.eqb_neq; lia).
  right. apply Nat.leb_gt. lia.
Qed.

Lemma lstrip_digits (s : string) : all_digits s = true -> lstrip s = s.
Proof.
  destruct s as [|c s]; simpl; [reflexivity|].
  intros H. apply andb_true_iff in H as [H _].
  now rewrite (digit_not_space _ H).
Qed.

Lemma rstrip_digits (s : string) : all_digits s = true -> rstrip s = s.
Proof.
  induction s as [|c s IH]; simpl; [reflexivity|].
  intros H. apply andb_true_iff in H as [Hc Hs].
  rewrite (IH Hs), (digit_not_space _ Hc). now destruct s.
Qed.

Lemma digit_groups_digits (s : string) :
  all_digits s = true -> digit_groups true s = Some s.
Proof.
  induction s as [|c s IH]; simpl; [reflexivity|].
  intros H. apply andb_true_iff in H as [Hc Hs].
  now rewrite Hc, (IH Hs).
Qed.

Lemma digit_groups_numeral (s : string) :
  all_digits s = true -> s <> EmptyString -> digit_groups false s = Some s.
Proof.
  destruct s as [|c s]; [congruence|]. simpl.
  intros H _. apply andb_true_iff in H as [Hc Hs].
  now rewrite Hc, (digit_groups_digits _ Hs).
Qed.

Lemma string_of_uint_nonempty (u : Decimal.uint) :
  u <> Decimal.Nil -> DecimalString.NilEmpty.string_of_uint u <> EmptyString.
Proof. destruct u; simpl; congruence. Qed.

Lemma unsigned_numeral_uint (u : Decimal.uint) :
  u <> Decimal.Nil ->
  unsigned_numeral (DecimalString.NilEmpty.string_of_uint u) = Some (Z.of_uint u).
Proof.
  intros Hu. unfold unsigned_numeral.
  rewrite (digit_groups_numeral _ (string_of_uint_digits u)
             (string_of_uint_nonempty u Hu)).
  now rewrite DecimalString.NilEmpty.usu.
Qed.

Lemma parse_int_uint (u : Decimal.uint) :
  u <> Decimal.Nil ->
  parse_int (DecimalString.NilEmpty.string_of_uint u) = Some (Z.of_uint u) /\
  parse_int (String "-" (DecimalString.NilEmpty.string_of_uint u))
  = Some (Z.opp (Z.of_uint u)).
Proof.
  intros Hu.
  pose proof (string_of_uint_digits u) as Hd.
  pose proof (unsigned_numeral_uint u Hu) as Hn.
  unfold parse_int.
  destruct (DecimalString.NilEmpty.string_of_uint u) as [|c s] eqn:E.
  - destruct u; simpl in E; congruence.
  - split.
    + rewrite (lstrip_digits _ Hd), (rstrip_digits _ Hd).
      simpl in Hd. apply andb_true_iff in Hd as [Hc _].
      destruct c as [[|] [|] [|] [|] [|] [|] [|] [|]]; try discriminate Hc; exact Hn.
    + assert (Hl : lstrip (String "-" (String c s)) = String "-" (String c s))
        by reflexivity.
      rewrite Hl.
      assert (Hr : rstrip (String "-" (String c s)) = String "-" (String c s)).
      { pose proof (rstrip_digits _ Hd) as Hs.
        cbn [rstrip] in Hs |- *.
        destruct (rstrip s); rewrite Hs; reflexivity. }
      rewrite Hr, Hn. reflexivity.
Qed.

(** [int(str(z)) == z]. *)
Lemma parse_int_str_int (z : Z) : parse_int (str_int z) = Some z.
Proof.
  unfold str_int. rewrite <- (DecimalZ.of_to z) at 2.
  destruct z as [|p|p]; simpl Z.to_int.
  - reflexivity.
  - pose proof (DecimalPos.Unsigned.to_uint_nonnil p) as Hp.
    destruct (parse_int_uint _ Hp) as [H _].
    simpl. destruct (Pos.to_uint p); [congruence| exact H ..].
  - pose proof (DecimalPos.Unsigned.to_uint_nonnil p) as Hp.
    destruct (parse_int_uint _ Hp) as [_ H].
    simpl. destruct (Pos.to_uint p); [congruence| exact H ..].
Qed.

(** ** The value converter on values that are not mappings *)

(** Raw values embed faithfully: two raw values with the same runtime
    value are the same. *)
Lemma of_json_injective (a b : json) : of_json a = of_json b -> a = b.
Proof.
  revert b. induction a as [| | | | |l IH|d IH] using json_ind;
    intros j H; destruct j as [| | | | |l'|d']; simpl in H; try congruence.
  - f_equal. injection H as H. revert l' H.
    induction IH as [|a Pa l Hl IHl]; intros [|a' l'] H; simpl in H;
      try congruence.
    injection H as H1 H2. f_equal; auto.
  - f_equal. injection H as H. revert d' H.
    induction IH as [|kv Pa d0 Hd IHd]; intros [|[k' v'] d'] H; simpl in H;
      try congruence.
    destruct Pa as [k v Pk Pv]. simpl in H.
    injection H as H1 H2 H3. f_equal; [f_equal|]; auto.
Qed.

(** C7: for every JSON value that is not a mapping (null, booleans,
    numbers, strings and lists), [_make_obj] returns the value itself,
    makes no call and converts no item of a list. *)
Theorem make_obj_identity_on_non_mappings (api : transport) (d : json) :
  isinstance_dict d = false ->
  _make_obj api d = ret (of_json d).
Proof. destruct d; simpl; intros H; try reflexivity; discriminate H. Qed.

Lemma make_obj_identity_on_non_mappings_witness :
  isinstance_dict (JList [JInt 1; soft_reference]) = false /\
  _make_obj demo (JList [JInt 1; soft_reference])
  = ret (VList [VInt 1;
                VDict [("name", VStr "soft");
                       ("url", VStr "http://pokeapi.co/api/v2/berry-firmness/2/")]]).
Proof.
  split; [reflexivity|].
  apply (make_obj_identity_on_non_mappings demo (JList [JInt 1; soft_reference])).
  reflexivity.
Defined.

(** ** Computations *)

Lemma bind_ret {A B : Type} (a : A) (k : A -> M B) : bind (ret a) k = k a.
Proof. unfold bind, ret. now destruct (k a). Qed.

Lemma bind_raise {A B : Type} (e : exn) (k : A -> M B) :
  bind (raise e) k = raise e.
Proof. reflexivity. Qed.

Lemma bind_value {A B : Type} (a : A) (t : trace) (k : A -> M B) :
  bind (inr a, t) k = (result (k a), t ++ calls (k a)).
Proof. unfold bind, result, calls. now destruct (k a). Qed.

Lemma bind_bind {A B C : Type} (m : M A) (k : A -> M B) (h : B -> M C) :
  bind (bind m k) h = bind m (fun a => bind (k a) h).
Proof.
  destruct m as [[e|a] t]; [reflexivity|]. simpl.
  destruct (k a) as [[e|b] t']; [reflexivity|]. simpl.
  destruct (h b) as [r t'']. now rewrite app_assoc.
Qed.

Lemma or_raise_some {A : Type} (a : A) (e : exn) : or_raise (Some a) e = ret a.
Proof. reflexivity. Qed.

Create Rewrite HintDb run.
#[local] Hint Rewrite @bind_ret @bind_raise @or_raise_some : run.

(** ** The category index and the resolver *)

Section Resolver.

Variable api : transport.

Lemma APIResourceList_serves (category : string) (entries : list json) (n : json) :
  serves api category entries n ->
  APIResourceList api category
  = (inr {| listing_name := category; results := entries; count := n |},
     [Call_get_resource category]).
Proof.
  intros (r & Hget & Hres & Hcount).
  unfold APIResourceList, call_get_resource. rewrite Hget, bind_value.
  simpl. rewrite Hres. simpl. now rewrite Hcount.
Qed.

Lemma id_segment_inv (e : json) (seg : string) :
  id_segment e = Some seg ->
  exists d u, e = JDict d /\ dict_get "url" d = Some (JStr u) /\
              index_from_end (split slash u) 2 = Some seg.
Proof.
  destruct e as [| | | | | |d]; try discriminate. simpl.
  destruct (dict_get "url" d) as [[| | | | u| |]|] eqn:E; try discriminate.
  intros H. now exists d, u.
Qed.

Lemma entry_name_inv (e : json) (n : json) :
  entry_name e = Some n -> exists d, e = JDict d /\ dict_get "name" d = Some n.
Proof. destruct e; try discriminate. intros H. eauto. Qed.

(** One turn of the loop that looks an id up. *)
Lemma id_loop_step (e : json) (rest : list json) (id_ : value) (seg s : string) :
  id_segment e = Some seg -> py_str id_ = Some s ->
  _convert_id_to_name_loop (e :: rest) id_
  = if String.eqb seg s
    then ret (of_json (match entry_name e with Some n => n | None => JNull end))
    else _convert_id_to_name_loop rest id_.
Proof.
  intros He Hs. apply id_segment_inv in He as (d & u & -> & Hu & Hseg).
  cbn [_convert_id_to_name_loop getitem]. rewrite Hu. autorewrite with run.
  cbn [split_method]. autorewrite with run.
  unfold item_from_end. rewrite Hseg. autorewrite with run.
  unfold str_. rewrite Hs. autorewrite with run.
  destruct (String.eqb seg s); [|reflexivity].
  cbn [get_method entry_name]. now autorewrite with run.
Qed.

(** One turn of the loop that looks a name up, on an entry with another
    name or none. *)
Lemma name_loop_miss (e : json) (rest : list json) (name : string) :
  isinstance_dict e = true -> entry_name e <> Some (JStr name) ->
  _convert_name_to_id_loop (e :: rest) name = _convert_name_to_id_loop rest name.
Proof.
  destruct e as [| | | | | |d]; try discriminate. intros _ Hn.
  cbn [_convert_name_to_id_loop get_method entry_name] in *.
  autorewrite with run.
  destruct (dict_get "name" d) as [v|]; [|reflexivity].
  destruct v as [| | | |s| |]; try reflexivity.
  simpl. destruct (String.eqb_spec s name); [congruence|reflexivity].
Qed.

(** One turn of the same loop on an entry with the name. *)
Lemma name_loop_hit (e : json) (rest : list json) (name seg : string) (z : Z) :
  entry_name e = Some (JStr name) -> id_segment e = Some seg ->
  parse_int seg = Some z ->
  _convert_name_to_id_loop (e :: rest) name = ret (VInt z).
Proof.
  intros Hn He Hz. apply id_segment_inv in He as (d & u & -> & Hu & Hseg).
  cbn [_convert_name_to_id_loop get_method entry_name] in *.
  rewrite Hn, Hu. autorewrite with run. simpl eq_str. rewrite String.eqb_refl.
  autorewrite with run. cbn [split_method]. autorewrite with run.
  unfold item_from_end. rewrite Hseg. autorewrite with run.
  unfold int_. rewrite Hz. now autorewrite with run.
Qed.

(** No entry with the id: the id loop falls off its end. *)
Lemma id_loop_none (entries : list json) (id_ : value) (s : string) :
  py_str id_ = Some s ->
  Forall (fun e => exists seg, id_segment e = Some seg /\ seg <> s) entries ->
  _convert_id_to_name_loop entries id_ = ret VNone.
Proof.
  intros Hs. induction 1 as [|e rest (seg & He & Hne) _ IH]; [reflexivity|].
  rewrite (id_loop_step _ rest _ _ _ He Hs).
  destruct (String.eqb_spec seg s); [contradiction|exact IH].
Qed.

(** No entry with the name: the name loop falls off its end. *)
Lemma name_loop_none (entries : list json) (name : string) :
  Forall (fun e => isinstance_dict e = true /\ entry_name e <> Some (JStr name))
    entries ->
  _convert_name_to_id_loop entries name = ret VNone.
Proof.
  induction 1 as [|e rest [Hd Hn] _ IH]; [reflexivity|].
  now rewrite (name_loop_miss _ rest _ Hd Hn).
Qed.

(** The two resolutions, given what the loop does on the served entries. *)
Lemma name_id_convert_int (category : string) (entries : list json) (n : json)
  (z : Z) (name : value) :
  serves api category entries n ->
  _convert_id_to_name_loop entries (VInt z) = ret name ->
  name_id_convert api category (VInt z)
  = (inr (name, VInt z), [Call_get_resource category]).
Proof.
  intros H Hloop. unfold name_id_convert, _convert_id_to_name.
  rewrite (APIResourceList_serves _ _ _ H), bind_value.
  cbn [__iter__ results]. rewrite Hloop. reflexivity.
Qed.

Lemma name_id_convert_str (category : string) (entries : list json) (n : json)
  (name : string) (id_ : value) :
  serves api category entries n ->
  _convert_name_to_id_loop entries name = ret id_ ->
  name_id_convert api category (VStr name)
  = (inr (VStr name, id_), [Call_get_resource category]).
Proof.
  intros H Hloop. unfold name_id_convert, _convert_name_to_id.
  rewrite (APIResourceList_serves _ _ _ H), bind_value.
  cbn [__iter__ results]. rewrite Hloop. reflexivity.
Qed.

(** A lazy construction runs the resolver, renders the id into the url
    and stores the four fields and the flag. *)
Lemma lazy_construction (resource_type : string) (resource_name name id_ : value)
  (s : string) (t : trace) :
  name_id_convert api resource_type resource_name = (inr (name, id_), t) ->
  py_str id_ = Some s ->
  NamedAPIResource api resource_type resource_name true
  = (inr (VResource (fresh_instance api resource_type name id_ s)), t).
Proof.
  intros Hc Hs.
  unfold NamedAPIResource, new, __init__, __init__fields, obj_bind, lift, modify,
    obj_ret.
  rewrite Hc. cbn [fst snd]. unfold str_. rewrite Hs. simpl.
  now rewrite !app_nil_r.
Qed.

Lemma NamedAPIResource_lazy_eq (resource_type : string) (resource_name : value) :
  NamedAPIResource_lazy api resource_type resource_name
  = NamedAPIResource api resource_type resource_name true.
Proof.
  unfold NamedAPIResource_lazy, NamedAPIResource, new, __init__, obj_bind, obj_ret.
  cbn [negb].
  destruct (__init__fields api resource_type resource_name [])
    as [[[e|[]] self] t]; [reflexivity|].
  now rewrite app_nil_r.
Qed.

(** The id that the resolver returns is its integer or boolean input, an
    integer it parsed, or [None]: it can always be rendered. *)
Lemma name_id_convert_rendered (resource_type : string) (name_or_id name id_ : value)
  (t : trace) :
  name_id_convert api resource_type name_or_id = (inr (name, id_), t) ->
  exists s, py_str id_ = Some s.
Proof.
  unfold name_id_convert.
  destruct name_or_id as [| b | z | | s | | | | |]; try discriminate.
  - destruct (_convert_id_to_name api resource_type (VBool b)) as [[e|v] t'];
      [discriminate|].
    rewrite bind_value. intros [= <- <- _]. simpl. eauto.
  - destruct (_convert_id_to_name api resource_type (VInt z)) as [[e|v] t'];
      [discriminate|].
    rewrite bind_value. intros [= <- <- _]. simpl. eauto.
  - unfold _convert_name_to_id.
    destruct (APIResourceList api resource_type) as [[e|index] t'];
      [discriminate|].
    rewrite bind_bind, bind_value.
    assert (Hloop : forall entries,
               match result (_convert_name_to_id_loop entries s) with
               | inr v => exists r, py_str v = Some r
               | inl _ => True
               end).
    { induction entries as [|e rest IH]; [simpl; eauto|].
      cbn [_convert_name_to_id_loop].
      destruct (get_method e "name" JNull) as [[x|n] tn]; [exact I|].
      rewrite bind_value. cbn [result fst].
      destruct (eq_str n s); [|exact IH].
      destruct (get_method e "url" JNull) as [[x|u] tu]; [exact I|].
      rewrite bind_value. cbn [result fst].
      destruct (split_method u) as [[x|segs] ts]; [exact I|].
      rewrite bind_value. cbn [result fst].
      destruct (item_from_end segs 2) as [[x|seg] tg]; [exact I|].
      rewrite bind_value. cbn [result fst].
      destruct (int_ seg) as [[x|z] tz]; [exact I|].
      rewrite bind_value. simpl. eauto. }
    specialize (Hloop (__iter__ index)).
    cbn [result fst].
    destruct (bind (_convert_name_to_id_loop (__iter__ index) s)
                (fun id_0 => ret (VStr s, id_0))) as [r tr] eqn:E.
    unfold bind in E.
    destruct (_convert_name_to_id_loop (__iter__ index) s) as [[x|v] tv].
    + injection E as <- <-. simpl. discriminate.
    + simpl in E. injection E as <- <-. simpl. intros [= <- <- _]. exact Hloop.
Qed.

(** What a lazy construction leaves behind, whenever it succeeds. *)
Lemma lazy_construction_inv (resource_type : string) (resource_name : value)
  (self : dict value) (t : trace) :
  NamedAPIResource api resource_type resource_name true = (inr (VResource self), t) ->
  exists name id_ s,
    name_id_convert api resource_type resource_name = (inr (name, id_), t) /\
    py_str id_ = Some s /\
    self = fresh_instance api resource_type name id_ s.
Proof.
  intros H.
  destruct (name_id_convert api resource_type resource_name) as [[e|[name id_]] t']
    eqn:Hc.
  - unfold NamedAPIResource, new, __init__, __init__fields, obj_bind, lift in H.
    rewrite Hc in H. simpl in H. discriminate.
  - destruct (name_id_convert_rendered _ _ _ _ _ Hc) as [s Hs].
    rewrite (lazy_construction _ _ _ _ _ _ Hc Hs) in H.
    injection H as <- <-. now exists name, id_, s.
Qed.

(** A name that no entry carries resolves to [None]. *)
Lemma name_id_convert_unknown_name (category : string) (entries : list json)
  (n : json) (name : string) :
  serves api category entries n ->
  Forall (fun e => isinstance_dict e = true /\ entry_name e <> Some (JStr name))
    entries ->
  name_id_convert api category (VStr name)
  = (inr (VStr name, VNone), [Call_get_resource category]).
Proof.
  intros Hserves Hnone.
  apply (name_id_convert_str category entries n name VNone Hserves).
  now apply name_loop_none.
Qed.

(** C5: for every category index and every integer id with no entry whose
    id segment is the rendering of that id, the resolution does not fail:
    [name_id_convert] returns the pair of [None] and the id itself. *)
Theorem unknown_id_resolves_to_none (category : string) (entries : list json)
  (n : json) (z : Z) :
  serves api category entries n ->
  Forall (fun e => exists seg, id_segment e = Some seg /\ seg <> str_int z)
    entries ->
  name_id_convert api category (VInt z)
  = (inr (VNone, VInt z), [Call_get_resource category]).
Proof.
  intros Hserves Hnone.
  apply (name_id_convert_int category entries n z VNone Hserves).
  now apply (id_loop_none entries (VInt z) (str_int z)).
Qed.

(** C2, as the code has it: for every category index whose entries are
    dicts and every string that is the [name] of none of them, the
    resolution does not fail; [name_id_convert] returns the pair of the name
    and [None], and a lazy construction yields an instance that is not
    loaded, with that name, the id [None] and a url ending in [None]. *)
Theorem unknown_name_resolves_to_none (category : string) (entries : list json)
  (n : json) (name : string) :
  serves api category entries n ->
  Forall (fun e => isinstance_dict e = true /\ entry_name e <> Some (JStr name))
    entries ->
  name_id_convert api category (VStr name)
  = (inr (VStr name, VNone), [Call_get_resource category]) /\
  NamedAPIResource api category (VStr name) true
  = (inr (VResource (fresh_instance api category (VStr name) VNone "None")),
     [Call_get_resource category]).
Proof.
  intros Hserves Hnone.
  pose proof (name_id_convert_unknown_name category entries n name Hserves Hnone)
    as Hc.
  split; [exact Hc|].
  now apply (lazy_construction category (VStr name) (VStr name) VNone "None").
Qed.

End Resolver.

Lemma demo_serves_berry :
  serves demo "berry"
    [entry "cheri" "http://pokeapi.co/api/v2/berry/1/";
     entry "chesto" "http://pokeapi.co/api/v2/berry/2/"] (JInt 2).
Proof. eexists. repeat split; reflexivity. Qed.

Lemma unknown_id_resolves_to_none_witness :
  name_id_convert demo "berry" (VInt 99)
  = (inr (VNone, VInt 99), [Call_get_resource "berry"]).
Proof.
  apply (unknown_id_resolves_to_none demo "berry" _ (JInt 2) 99 demo_serves_berry).
  repeat constructor; eexists; (split; [reflexivity|discriminate]).
Defined.

Lemma unknown_name_resolves_to_none_witness :
  name_id_convert demo "berry" (VStr "pecha")
  = (inr (VStr "pecha", VNone), [Call_get_resource "berry"]) /\
  NamedAPIResource demo "berry" (VStr "pecha") true
  = (inr (VResource (fresh_instance demo "berry" (VStr "pecha") VNone "None")),
     [Call_get_resource "berry"]).
Proof.
  apply (unknown_name_resolves_to_none demo "berry" _ (JInt 2) "pecha"
           demo_serves_berry).
  repeat constructor; discriminate.
Defined.

(** C2, as stated, fails: the name [pecha] is in no entry of the berry
    listing, yet neither the resolution nor the construction raises. *)
Lemma unknown_name_does_not_fail :
  ~ raises (name_id_convert demo "berry" (VStr "pecha")) /\
  ~ raises (NamedAPIResource demo "berry" (VStr "pecha") true).
Proof. split; intros [e H]; discriminate H. Qed.

(** ** Round trip through the index *)

Section Index.

Variable api : transport.

Lemma id_loop_found (pre : list json) (e : json) (post : list json)
  (id_ : value) (s : string) :
  py_str id_ = Some s ->
  Forall (fun x => exists seg, id_segment x = Some seg /\ seg <> s) pre ->
  id_segment e = Some s ->
  _convert_id_to_name_loop (pre ++ e :: post) id_
  = ret (of_json (match entry_name e with Some n => n | None => JNull end)).
Proof.
  intros Hs Hpre He.
  induction Hpre as [|x pre (seg & Hx & Hne) _ IH]; simpl app.
  - rewrite (id_loop_step _ post _ _ _ He Hs). now rewrite String.eqb_refl.
  - rewrite (id_loop_step _ (pre ++ e :: post) _ _ _ Hx Hs).
    destruct (String.eqb_spec seg s); [contradiction|exact IH].
Qed.

Lemma name_loop_found (pre : list json) (e : json) (post : list json)
  (name seg : string) (z : Z) :
  Forall (fun x => isinstance_dict x = true /\ entry_name x <> Some (JStr name))
    pre ->
  entry_name e = Some (JStr name) -> id_segment e = Some seg ->
  parse_int seg = Some z ->
  _convert_name_to_id_loop (pre ++ e :: post) name = ret (VInt z).
Proof.
  intros Hpre Hn He Hz.
  induction Hpre as [|x pre [Hd Hx] _ IH]; simpl app.
  - exact (name_loop_hit _ post _ _ _ Hn He Hz).
  - now rewrite (name_loop_miss _ (pre ++ e :: post) _ Hd Hx).
Qed.

Lemma entry_name_dec (e : json) (name : string) :
  {entry_name e = Some (JStr name)} + {entry_name e <> Some (JStr name)}.
Proof.
  destruct (entry_name e) as [[| | | | s | |]|]; try (right; discriminate).
  destruct (String.eqb_spec s name); [left|right]; congruence.
Qed.

(** The first entry that carries a name. *)
Lemma first_named (entries : list json) (name : string) :
  (exists e, In e entries /\ entry_name e = Some (JStr name)) ->
  exists pre e post,
    entries = pre ++ e :: post /\
    Forall (fun x => entry_name x <> Some (JStr name)) pre /\
    entry_name e = Some (JStr name).
Proof.
  induction entries as [|x rest IH]; intros (e & Hin & He); [contradiction|].
  destruct (entry_name_dec x name) as [Hx|Hx].
  - now exists [], x, rest.
  - destruct Hin as [->|Hin]; [contradiction|].
    destruct IH as (pre & e' & post & -> & Hpre & He'); [now exists e|].
    exists (x :: pre), e', post. repeat split; auto.
Qed.

(** C6: for every category index whose entries have the rendering of an
    integer as id segment, no two of them the same, and every name carried
    by an entry: resolving the name gives an id, and resolving that id gives
    the name back.  (That names are unique is not needed.) *)
Theorem name_id_roundtrip (category : string) (entries : list json) (n : json)
  (name : string) :
  serves api category entries n ->
  Forall (fun e => exists z, id_segment e = Some (str_int z)) entries ->
  NoDup (map id_segment entries) ->
  (exists e, In e entries /\ entry_name e = Some (JStr name)) ->
  exists z,
    name_id_convert api category (VStr name)
    = (inr (VStr name, VInt z), [Call_get_resource category]) /\
    name_id_convert api category (VInt z)
    = (inr (VStr name, VInt z), [Call_get_resource category]).
Proof.
  intros Hserves Hids Hnodup Hname.
  destruct (first_named entries name Hname) as (pre & e & post & -> & Hpre & He).
  apply Forall_app in Hids as [Hids_pre Hids_e].
  inversion Hids_e as [|? ? [z Hz] _]; subst.
  exists z. split.
  - apply (name_id_convert_str api category _ n name (VInt z) Hserves).
    apply (name_loop_found pre e post name (str_int z) z); auto.
    + rewrite Forall_forall in *. intros x Hx. split; [|now apply Hpre].
      destruct (Hids_pre x Hx) as [zx Hzx].
      now destruct (id_segment_inv x _ Hzx) as (d & u & -> & _).
    + apply parse_int_str_int.
  - apply (name_id_convert_int api category _ n z (VStr name) Hserves).
    rewrite (id_loop_found pre e post (VInt z) (str_int z)); auto.
    + now rewrite He.
    + rewrite map_app in Hnodup. simpl in Hnodup.
      apply NoDup_remove_2 in Hnodup.
      rewrite Forall_forall in *. intros x Hx.
      destruct (Hids_pre x Hx) as [zx Hzx].
      exists (str_int zx). split; [exact Hzx|].
      intros Heq. apply Hnodup. apply in_or_app. left.
      rewrite Hz, <- Heq, <- Hzx. now apply in_map.
Qed.

(** ** The category index *)

Lemma names_item_listed (e : json) (seg : string) :
  id_segment e = Some seg ->
  names_item e = ret (match entry_name e with Some n => n | None => JStr seg end).
Proof.
  intros He. apply id_segment_inv in He as (d & u & -> & Hu & Hseg).
  cbn [names_item getitem]. rewrite Hu. autorewrite with run.
  cbn [split_method]. autorewrite with run.
  unfold item_from_end. rewrite Hseg. autorewrite with run.
  reflexivity.
Qed.

Lemma names_listed (entries : list json) :
  Forall (fun e => id_segment e <> None) entries ->
  exists ns,
    generate names_item entries = {| yielded := ns; stopped := None |} /\
    Forall2 (fun e x => listed_name e = Some x) entries ns.
Proof.
  induction 1 as [|e rest He _ (ns & Hg & Hns)].
  - exists []. split; [reflexivity|constructor].
  - destruct (id_segment e) as [seg|] eqn:Hseg; [|congruence].
    exists ((match entry_name e with Some n => n | None => JStr seg end) :: ns).
    split.
    + cbn [generate]. rewrite (names_item_listed e seg Hseg), Hg. reflexivity.
    + constructor; [|exact Hns].
      unfold listed_name. rewrite Hseg. now destruct (entry_name e).
Qed.

(** C9: for every category index, its length is the [count] field of the
    listing whatever the entries listed are, and [names] hands out, entry by
    entry in listing order, the [name] field when the entry has one and
    else the id segment of its url (every entry having a url with an id
    segment). *)
Theorem category_index_length_and_names (category : string)
  (entries : list json) (n : json) :
  serves api category entries n ->
  exists index,
    APIResourceList api category = (inr index, [Call_get_resource category]) /\
    __iter__ index = entries /\
    __len__ index = n /\
    (forall z, n = JInt z -> (0 <= z < 2 ^ 63)%Z -> len index = ret z) /\
    (Forall (fun e => id_segment e <> None) entries ->
     exists ns,
       names index = {| yielded := ns; stopped := None |} /\
       Forall2 (fun e x => listed_name e = Some x) entries ns).
Proof.
  intros Hserves.
  exists {| listing_name := category; results := entries; count := n |}.
  split; [now apply APIResourceList_serves|].
  repeat split.
  - intros z -> [Hlo Hhi]. unfold len, len_of. cbn [__len__ count].
    destruct (Z.ltb_spec z 0); [lia|].
    destruct (Z.ltb_spec z (2 ^ 63)); [reflexivity|lia].
  - intros Hwf. unfold names. cbn [results]. now apply names_listed.
Qed.

(** ** The value converter on references *)

(** A dict with a [url] ending in [/<category>/<id>/] is converted by the
    lazy construction that gets the id segment, a string, as the name or
    id to resolve. *)
Lemma make_obj_reference (d : dict json) (pre category id : string) :
  dict_get "url" d = Some (JStr (reference_url pre category id)) ->
  free_of slash category = true -> free_of slash id = true ->
  _make_obj api (JDict d) = NamedAPIResource api category (VStr id) true.
Proof.
  intros Hurl Hc Hi.
  destruct (split_reference_url pre category id Hc Hi) as [segs Hsegs].
  cbn [_make_obj]. unfold dict_has. rewrite Hurl.
  cbn [getitem]. rewrite Hurl. autorewrite with run.
  cbn [split_method]. autorewrite with run.
  unfold item_from_end. rewrite Hsegs.
  destruct (index_from_end_app segs category id "") as [H2 H3].
  rewrite H2. autorewrite with run.
  rewrite H3. autorewrite with run.
  apply NamedAPIResource_lazy_eq.
Qed.

(** So the instance has the category of the url, is not loaded, has the
    id segment as its name and, unless an entry of the category is named
    like the id segment, [None] as its id. *)
Lemma make_obj_reference_unresolved (d : dict json) (pre category id : string)
  (entries : list json) (n : json) :
  dict_get "url" d = Some (JStr (reference_url pre category id)) ->
  free_of slash category = true -> free_of slash id = true ->
  serves api category entries n ->
  Forall (fun e => isinstance_dict e = true /\ entry_name e <> Some (JStr id))
    entries ->
  _make_obj api (JDict d)
  = (inr (VResource (fresh_instance api category (VStr id) VNone "None")),
     [Call_get_resource category]).
Proof.
  intros Hurl Hc Hi Hserves Hnone.
  rewrite (make_obj_reference d pre category id Hurl Hc Hi).
  apply (lazy_construction api category (VStr id) (VStr id) VNone "None");
    [|reflexivity].
  now apply (name_id_convert_unknown_name api category entries n id).
Qed.

End Index.

Lemma demo_serves_firmness :
  serves demo "berry-firmness"
    [entry "very-soft" "http://pokeapi.co/api/v2/berry-firmness/1/";
     entry "soft" "http://pokeapi.co/api/v2/berry-firmness/2/"] (JInt 5).
Proof. eexists. repeat split; reflexivity. Qed.

Lemma name_id_roundtrip_witness :
  exists z,
    name_id_convert demo "berry" (VStr "chesto")
    = (inr (VStr "chesto", VInt z), [Call_get_resource "berry"]) /\
    name_id_convert demo "berry" (VInt z)
    = (inr (VStr "chesto", VInt z), [Call_get_resource "berry"]).
Proof.
  apply (name_id_roundtrip demo "berry" _ (JInt 2) "chesto" demo_serves_berry).
  - repeat constructor; [now exists 1%Z | now exists 2%Z].
  - repeat constructor; simpl; intuition discriminate.
  - exists (entry "chesto" "http://pokeapi.co/api/v2/berry/2/").
    split; [right; left|]; reflexivity.
Defined.

Lemma category_index_length_and_names_witness :
  exists index,
    APIResourceList demo "berry-firmness"
    = (inr index, [Call_get_resource "berry-firmness"]) /\
    len index = ret 5%Z /\
    names index
    = {| yielded := [JStr "very-soft"; JStr "soft"]; stopped := None |}.
Proof.
  destruct (category_index_length_and_names demo "berry-firmness" _ (JInt 5)
              demo_serves_firmness) as (index & Hnew & _ & _ & Hlen & Hnames).
  exists index. split; [exact Hnew|]. split.
  - apply Hlen; [reflexivity|lia].
  - destruct Hnames as (ns & -> & Hns); [repeat constructor; discriminate|].
    inversion Hns as [|? x1 ? ns1 H1 Hns1]; subst.
    inversion Hns1 as [|? x2 ? ns2 H2 Hns2]; subst.
    inversion Hns2; subst.
    injection H1 as <-. injection H2 as <-. reflexivity.
Defined.

(** C1, on the code: the reference to the berry firmness with id 2 is
    converted to an instance of the right category that is not loaded, but
    the id segment went to the resolver as a name: the instance is named
    ["2"], its id is [None] and its url ends in [None]. *)
Theorem make_obj_reference_loses_id :
  _make_obj demo soft_reference
  = (inr (VResource
            [("name", VStr "2");
             ("resource_type", VStr "berry-firmness");
             ("id_", VNone);
             ("url", VStr "http://pokeapi.co/api/v2/berry-firmness/None");
             (__loaded, VBool false)]),
     [Call_get_resource "berry-firmness"]).
Proof.
  unfold soft_reference, entry.
  eapply (make_obj_reference_unresolved demo _ "http://pokeapi.co/api/v2"
            "berry-firmness" "2" _ (JInt 5)); try reflexivity.
  - exact demo_serves_firmness.
  - repeat constructor; discriminate.
Qed.

(** ** Dictionaries *)

Lemma dict_get_set_same {V : Type} (k : string) (v : V) (d : dict V) :
  dict_get k (dict_set k v d) = Some v.
Proof.
  induction d as [|[k' v'] d IH]; simpl.
  - now rewrite String.eqb_refl.
  - destruct (String.eqb_spec k k') as [->|Hne]; simpl.
    + now rewrite String.eqb_refl.
    + now destruct (String.eqb_spec k k').
Qed.

Lemma dict_get_set_other {V : Type} (k k' : string) (v : V) (d : dict V) :
  k <> k' -> dict_get k (dict_set k' v d) = dict_get k d.
Proof.
  intros Hne. induction d as [|[k'' v''] d IH]; simpl.
  - now destruct (String.eqb_spec k k').
  - destruct (String.eqb_spec k' k'') as [->|Hne']; simpl.
    + now destruct (String.eqb_spec k k'').
    + now rewrite IH.
Qed.

Lemma dict_get_none {V : Type} (k : string) (d : dict V) :
  dict_get k d = None <-> ~ In k (keys d).
Proof.
  induction d as [|[k' v] d IH]; simpl; [tauto|].
  destruct (String.eqb_spec k k') as [->|Hne].
  - split; [discriminate|]. intros H. exfalso. apply H. now left.
  - rewrite IH. split; [|tauto].
    intros H [Heq|Hin]; [congruence|contradiction].
Qed.

Lemma dict_get_in {V : Type} (k : string) (v : V) (d : dict V) :
  NoDup (keys d) -> In (k, v) d -> dict_get k d = Some v.
Proof.
  induction d as [|[k' v'] d IH]; simpl; [contradiction|].
  intros Hnd [Heq|Hin].
  - injection Heq as -> ->. now rewrite String.eqb_refl.
  - inversion Hnd as [|? ? Hnotin Hnd']; subst.
    destruct (String.eqb_spec k k') as [->|Hne]; [|auto].
    exfalso. apply Hnotin. change k' with (fst (k', v)). now apply in_map.
Qed.

(** Setting a key that is there keeps the other entries in place. *)
Lemma dict_set_middle {V : Type} (k : string) (v x : V) (done rest : dict V) :
  ~ In k (keys done) ->
  dict_set k x (done ++ (k, v) :: rest) = done ++ (k, x) :: rest.
Proof.
  induction done as [|[k' v'] done IH]; simpl; intros Hk.
  - now rewrite String.eqb_refl.
  - destruct (String.eqb_spec k k') as [->|Hne]; [tauto|].
    rewrite IH; tauto.
Qed.

Lemma dict_set_fresh {V : Type} (k : string) (x : V) (d : dict V) :
  ~ In k (keys d) -> dict_set k x d = d ++ [(k, x)].
Proof.
  induction d as [|[k' v'] d IH]; simpl; intros Hk; [reflexivity|].
  destruct (String.eqb_spec k k') as [->|Hne]; [tauto|].
  rewrite IH; tauto.
Qed.

(** Updating the empty dict with a real dict gives that dict. *)
Lemma dict_update_fresh {V : Type} (acc d : dict V) :
  NoDup (keys acc ++ keys d) -> dict_update acc d = acc ++ d.
Proof.
  revert acc. induction d as [|[k v] d IH]; intros acc Hnd; simpl.
  - now rewrite app_nil_r.
  - unfold dict_update in *. simpl.
    rewrite dict_set_fresh.
    + rewrite IH; [now rewrite <- app_assoc|].
      unfold keys in *. rewrite map_app, <- app_assoc. exact Hnd.
    + simpl in Hnd. apply NoDup_remove_2 in Hnd.
      intros Hin. apply Hnd, in_or_app. now left.
Qed.

Lemma dict_update_empty {V : Type} (d : dict V) :
  NoDup (keys d) -> dict_update [] d = d.
Proof. intros H. now apply (dict_update_fresh []). Qed.

(** After an update the keys of the argument have the values of the
    argument. *)
Lemma dict_get_update {V : Type} (k : string) (v : V) (d other : dict V) :
  NoDup (keys other) -> dict_get k other = Some v ->
  dict_get k (dict_update d other) = Some v.
Proof.
  revert d. induction other as [|[k' v'] other IH]; intros d Hnd Hget;
    [discriminate|].
  unfold dict_update in *. simpl in *.
  inversion Hnd as [|? ? Hnotin Hnd']; subst.
  destruct (String.eqb_spec k k') as [->|Hne].
  - injection Hget as ->. clear IH.
    assert (Hkeep : forall acc, dict_get k' acc = Some v ->
              dict_get k' (fold_left (fun a kv => dict_set (fst kv) (snd kv) a)
                             other acc) = Some v).
    { clear Hnd. induction other as [|[k'' v''] other IH]; intros acc Hacc;
        [exact Hacc|].
      simpl. apply IH.
      - intros Hin. apply Hnotin. now right.
      - now inversion Hnd'.
      - rewrite dict_get_set_other; [exact Hacc|].
        intros ->. apply Hnotin. now left. }
    apply Hkeep, dict_get_set_same.
  - now apply IH.
Qed.

Lemma dict_get_update_other {V : Type} (k : string) (d other : dict V) :
  dict_get k other = None ->
  dict_get k (dict_update d other) = dict_get k d.
Proof.
  revert d. induction other as [|[k' v'] other IH]; intros d Hget;
    [reflexivity|].
  unfold dict_update in *. simpl in *.
  destruct (String.eqb_spec k k') as [->|Hne]; [discriminate|].
  rewrite IH; [|exact Hget]. now apply dict_get_set_other.
Qed.

(** ** Field by field *)

Lemma bind_ext_on {A B : Type} (m : M A) (k k' : A -> M B) :
  (forall a, result m = inr a -> k a = k' a) -> bind m k = bind m k'.
Proof.
  destruct m as [[e|a] t]; intros H; [reflexivity|].
  simpl. now rewrite (H a eq_refl).
Qed.

Lemma bind_ext {A B : Type} (m : M A) (k k' : A -> M B) :
  (forall a, k a = k' a) -> bind m k = bind m k'.
Proof. intros H. apply bind_ext_on. auto. Qed.

Lemma bind_result_inv {A B : Type} (m : M A) (k : A -> M B) (b : B) :
  result (bind m k) = inr b ->
  exists a, result m = inr a /\ result (k a) = inr b.
Proof.
  destruct m as [[e|a] t]; [discriminate|].
  rewrite bind_value. simpl. eauto.
Qed.

Lemma mapM_Forall2 {A B : Type} (f : A -> M B) (l : list A) (xs : list B) :
  result (mapM f l) = inr xs <->
  Forall2 (fun i x => result (f i) = inr x) l xs.
Proof.
  revert xs. induction l as [|a l IH]; intros xs; simpl.
  - split.
    + intros [= <-]. constructor.
    + now inversion 1.
  - split.
    + intros H. apply bind_result_inv in H as (b & Hb & H).
      apply bind_result_inv in H as (bs & Hbs & H).
      injection H as <-. constructor; [exact Hb|now apply IH].
    + inversion 1 as [|? b ? bs Hb Hbs]; subst.
      apply IH in Hbs.
      destruct (f a) as [[e|b'] t]; simpl in Hb; [discriminate|].
      injection Hb as ->. rewrite bind_value.
      destruct (mapM f l) as [[e|bs'] t']; simpl in Hbs; [discriminate|].
      injection Hbs as ->. reflexivity.
Qed.

Lemma map_fields_keys (f : json -> M value) (d : dict json) (fs : dict value) :
  result (map_fields f d) = inr fs -> keys fs = keys d.
Proof.
  revert fs. induction d as [|[k v] d IH]; intros fs; simpl.
  - now intros [= <-].
  - intros H. apply bind_result_inv in H as (x & Hx & H).
    apply bind_result_inv in H as (xs & Hxs & H).
    injection H as <-. simpl. f_equal. now apply IH.
Qed.

Lemma map_fields_in (f : json -> M value) (d : dict json) (fs : dict value)
  (k : string) (v : json) :
  result (map_fields f d) = inr fs -> In (k, v) d ->
  exists x, result (f v) = inr x /\ In (k, x) fs.
Proof.
  revert fs. induction d as [|[k' v'] d IH]; intros fs; simpl; [tauto|].
  intros H Hin. apply bind_result_inv in H as (x & Hx & H).
  apply bind_result_inv in H as (xs & Hxs & H). injection H as <-.
  destruct Hin as [Heq|Hin].
  - injection Heq as -> ->. exists x. split; [exact Hx|now left].
  - destruct (IH xs Hxs Hin) as (y & Hy & Hiny). exists y. split; [exact Hy|now right].
Qed.

(** On a real dict the loop of [APIMetadata.__init__] is a map over the
    fields. *)
Lemma APIMetadata_loop_fields (f : json -> M value) (items : dict json)
  (done : dict value) :
  NoDup (keys done ++ keys items) ->
  APIMetadata_loop f items (done ++ of_json_dict items)
  = (fs <- map_fields (metadata_field f) items ;; ret (done ++ fs)).
Proof.
  revert done. induction items as [|[k v] rest IH]; intros done Hnd.
  - simpl. now autorewrite with run.
  - assert (Hk : ~ In k (keys done)).
    { simpl in Hnd. apply NoDup_remove_2 in Hnd.
      intros Hin. apply Hnd, in_or_app. now left. }
    assert (Hnext : forall x,
               APIMetadata_loop f rest ((done ++ [(k, x)]) ++ of_json_dict rest)
               = (fs <- map_fields (metadata_field f) rest ;;
                  ret (done ++ (k, x) :: fs))).
    { intros x. rewrite IH.
      - apply bind_ext. intros fs. now rewrite <- app_assoc.
      - unfold keys in *. rewrite map_app, <- app_assoc. exact Hnd. }
    assert (Hrhs : (fs <- map_fields (metadata_field f) ((k, v) :: rest) ;;
                    ret (done ++ fs))
                   = (x <- metadata_field f v ;;
                      fs <- map_fields (metadata_field f) rest ;;
                      ret (done ++ (k, x) :: fs))).
    { cbn [map_fields]. rewrite bind_bind. apply bind_ext. intros x.
      rewrite bind_bind. apply bind_ext. intros fs. now rewrite bind_ret. }
    rewrite Hrhs.
    cbn [APIMetadata_loop of_json_dict map fst snd]. fold (of_json_dict rest).
    destruct v; cbn [metadata_field];
      try (rewrite bind_ret, <- Hnext, <- app_assoc; reflexivity).
    apply bind_ext. intros x.
    rewrite dict_set_middle by exact Hk.
    now rewrite <- Hnext, <- app_assoc.
Qed.

(** On a real dict the loop of [_load] is a map over the fields too. *)
Lemma _load_loop_fields (f : json -> M value) (items : dict json)
  (done : dict value) :
  NoDup (keys done ++ keys items) ->
  _load_loop f items (done ++ of_json_dict items)
  = (fs <- map_fields (loaded_field f) items ;; ret (done ++ fs)).
Proof.
  revert done. induction items as [|[k v] rest IH]; intros done Hnd.
  - simpl. now autorewrite with run.
  - assert (Hk : ~ In k (keys done)).
    { simpl in Hnd. apply NoDup_remove_2 in Hnd.
      intros Hin. apply Hnd, in_or_app. now left. }
    assert (Hnext : forall x,
               _load_loop f rest ((done ++ [(k, x)]) ++ of_json_dict rest)
               = (fs <- map_fields (loaded_field f) rest ;;
                  ret (done ++ (k, x) :: fs))).
    { intros x. rewrite IH.
      - apply bind_ext. intros fs. now rewrite <- app_assoc.
      - unfold keys in *. rewrite map_app, <- app_assoc. exact Hnd. }
    assert (Hrhs : (fs <- map_fields (loaded_field f) ((k, v) :: rest) ;;
                    ret (done ++ fs))
                   = (x <- loaded_field f v ;;
                      fs <- map_fields (loaded_field f) rest ;;
                      ret (done ++ (k, x) :: fs))).
    { cbn [map_fields]. rewrite bind_bind. apply bind_ext. intros x.
      rewrite bind_bind. apply bind_ext. intros fs. now rewrite bind_ret. }
    rewrite Hrhs.
    cbn [_load_loop of_json_dict map fst snd]. fold (of_json_dict rest).
    destruct v; cbn [loaded_field];
      try (rewrite bind_ret, <- Hnext, <- app_assoc; reflexivity).
    + rewrite bind_bind. apply bind_ext. intros xs. rewrite bind_ret.
      rewrite dict_set_middle by exact Hk.
      now rewrite <- Hnext, <- app_assoc.
    + apply bind_ext. intros x.
      rewrite dict_set_middle by exact Hk.
      now rewrite <- Hnext, <- app_assoc.
Qed.

Section Objects.

Variable api : transport.

Lemma _make_obj_unfold (d : json) :
  _make_obj api d
  = match d with
    | JDict kvs =>
        if dict_has "url" kvs then
          url <- getitem d "url" ;;
          segs <- split_method url ;;
          id_ <- item_from_end segs 2 ;;
          segs' <- split_method url ;;
          location <- item_from_end segs' 3 ;;
          NamedAPIResource api location (VStr id_) true
        else APIMetadata api kvs
    | _ => ret (of_json d)
    end.
Proof.
  destruct d as [| | | | | |kvs]; try reflexivity.
  cbn [_make_obj]. destruct (dict_has "url" kvs); [|reflexivity].
  repeat (apply bind_ext; intros ?). apply NamedAPIResource_lazy_eq.
Qed.

(** [APIMetadata] on a real dict. *)
Lemma APIMetadata_fields (data : dict json) :
  NoDup (keys data) ->
  APIMetadata api data
  = (fields <- map_fields (metadata_field (_make_obj api)) data ;;
     ret (VMeta fields)).
Proof.
  intros Hnd. unfold APIMetadata.
  pose proof (APIMetadata_loop_fields (_make_obj api) data [] Hnd) as Hloop.
  cbn [app] in Hloop. rewrite Hloop.
  rewrite bind_bind. apply bind_ext_on. intros fields Hf.
  rewrite bind_ret. unfold new, modify, ret. simpl.
  rewrite dict_update_empty; [reflexivity|].
  now rewrite (map_fields_keys _ _ _ Hf).
Qed.

(** [_load] on an instance with its two construction fields, when the
    transport layer answers with a real dict. *)
Lemma _load_fields (self : dict value) (resource_type id_ : value)
  (data : dict json) :
  dict_get "resource_type" self = Some resource_type ->
  dict_get "id_" self = Some id_ ->
  get_data api resource_type id_ = inr (JDict data) ->
  NoDup (keys data) ->
  _load api self
  = (match result (map_fields (loaded_field (_make_obj api)) data) with
     | inl e => inl e
     | inr _ => inr tt
     end,
     match result (map_fields (loaded_field (_make_obj api)) data) with
     | inl _ => self
     | inr fields => dict_update self fields
     end,
     Call_get_data resource_type id_
       :: calls (map_fields (loaded_field (_make_obj api)) data)).
Proof.
  intros Hrt Hid Hdata Hnd.
  unfold _load, obj_bind, self_attr, lift, call_get_data, modify.
  rewrite Hrt, Hid. cbn [fst snd]. rewrite Hdata. cbn [items_method ret fst snd].
  pose proof (_load_loop_fields (_make_obj api) data [] Hnd) as Hloop.
  cbn [app] in Hloop. rewrite Hloop.
  destruct (map_fields (loaded_field (_make_obj api)) data) as [[e|fields] t].
  - reflexivity.
  - rewrite bind_value. simpl. now rewrite ?app_nil_r.
Qed.

(** C8: for every raw dict, [APIMetadata] replaces each field that is a
    dict by its conversion and leaves each field that is a list as it is,
    items included, whereas [_load] replaces each field that is a dict by
    its conversion and each field that is a list by the list of the
    conversions of its items. *)
Theorem metadata_keeps_lists_load_converts_them (data : dict json) :
  NoDup (keys data) ->
  APIMetadata api data
  = (fields <- map_fields (metadata_field (_make_obj api)) data ;;
     ret (VMeta fields)) /\
  (forall fields k v,
      result (map_fields (metadata_field (_make_obj api)) data) = inr fields ->
      In (k, v) data ->
      (isinstance_dict v = true ->
       exists x, result (_make_obj api v) = inr x /\ dict_get k fields = Some x) /\
      (forall l, v = JList l -> dict_get k fields = Some (VList (map of_json l)))) /\
  (forall self resource_type id_,
      dict_get "resource_type" self = Some resource_type ->
      dict_get "id_" self = Some id_ ->
      get_data api resource_type id_ = inr (JDict data) ->
      _load api self
      = (match result (map_fields (loaded_field (_make_obj api)) data) with
         | inl e => inl e
         | inr _ => inr tt
         end,
         match result (map_fields (loaded_field (_make_obj api)) data) with
         | inl _ => self
         | inr fields => dict_update self fields
         end,
         Call_get_data resource_type id_
           :: calls (map_fields (loaded_field (_make_obj api)) data))) /\
  (forall fields k v self,
      result (map_fields (loaded_field (_make_obj api)) data) = inr fields ->
      In (k, v) data ->
      (isinstance_dict v = true ->
       exists x, result (_make_obj api v) = inr x /\
                 dict_get k (dict_update self fields) = Some x) /\
      (forall l, v = JList l ->
       exists xs, Forall2 (fun i x => result (_make_obj api i) = inr x) l xs /\
                  dict_get k (dict_update self fields) = Some (VList xs))).
Proof.
  intros Hnd. split; [now apply APIMetadata_fields|]. split; [|split].
  - intros fields k v Hf Hin.
    destruct (map_fields_in _ _ _ _ _ Hf Hin) as (x & Hx & Hinx).
    assert (Hget : dict_get k fields = Some x).
    { apply dict_get_in; [|exact Hinx]. now rewrite (map_fields_keys _ _ _ Hf). }
    split.
    + intros Hd. destruct v; try discriminate Hd. now exists x.
    + intros l ->. simpl in Hx. now injection Hx as <-.
  - intros self resource_type id_ Hrt Hid Hdata. now apply _load_fields.
  - intros fields k v self Hf Hin.
    destruct (map_fields_in _ _ _ _ _ Hf Hin) as (x & Hx & Hinx).
    assert (Hget : dict_get k (dict_update self fields) = Some x).
    { assert (Hk : NoDup (keys fields)) by now rewrite (map_fields_keys _ _ _ Hf).
      apply dict_get_update; [exact Hk|]. now apply dict_get_in. }
    split.
    + intros Hd. destruct v; try discriminate Hd. now exists x.
    + intros l ->. cbn [loaded_field] in Hx.
      apply bind_result_inv in Hx as (xs & Hxs & Hx). injection Hx as <-.
      exists xs. split; [now apply mapM_Forall2|exact Hget].
Qed.

End Objects.

Lemma metadata_keeps_lists_load_converts_them_witness :
  NoDup (keys mixed_fields) /\
  APIMetadata demo mixed_fields
  = (inr (VMeta [("firmness", soft_instance);
                 ("flavors", VList [of_json soft_reference; VInt 3])]),
     [Call_get_resource "berry-firmness"]) /\
  _load demo (berry_instance "x" 3)
  = (inr tt,
     berry_instance "x" 3
       ++ [("firmness", soft_instance);
           ("flavors", VList [soft_instance; VInt 3])],
     [Call_get_data (VStr "berry") (VInt 3);
      Call_get_resource "berry-firmness";
      Call_get_resource "berry-firmness"]).
Proof.
  assert (Hnd : NoDup (keys mixed_fields)).
  { repeat constructor; simpl; intuition discriminate. }
  destruct (metadata_keeps_lists_load_converts_them demo mixed_fields Hnd)
    as (Hmeta & _ & Hload & _).
  split; [exact Hnd|]. split.
  - rewrite Hmeta. reflexivity.
  - rewrite (Hload (berry_instance "x" 3) (VStr "berry") (VInt 3)
               eq_refl eq_refl eq_refl).
    reflexivity.
Defined.

(** ** Who calls [get_data] *)

Lemma quiet_nil : quiet [].
Proof. constructor. Qed.

Lemma quiet_app (t t' : trace) : quiet t -> quiet t' -> quiet (t ++ t').
Proof. intros H H'. apply Forall_app. now split. Qed.

Lemma quiet_count (t : trace) : quiet t -> get_data_calls t = 0.
Proof.
  unfold get_data_calls. induction 1 as [|ev t Hev _ IH]; [reflexivity|].
  simpl. now rewrite Hev.
Qed.

Lemma get_data_calls_app (t t' : trace) :
  get_data_calls (t ++ t') = get_data_calls t + get_data_calls t'.
Proof. unfold get_data_calls. now rewrite filter_app, length_app. Qed.

Lemma quiet_bind {A B : Type} (m : M A) (k : A -> M B) :
  quiet (calls m) -> (forall a, quiet (calls (k a))) -> quiet (calls (bind m k)).
Proof.
  destruct m as [[e|a] t]; intros Hm Hk; [exact Hm|].
  rewrite bind_value. now apply quiet_app.
Qed.

Lemma quiet_or_raise {A : Type} (o : option A) (e : exn) :
  quiet (calls (or_raise o e)).
Proof. destruct o; constructor. Qed.

Lemma quiet_getitem (j : json) (key : string) : quiet (calls (getitem j key)).
Proof. destruct j; try constructor. apply quiet_or_raise. Qed.

Lemma quiet_get_method (j : json) (key : string) (default : json) :
  quiet (calls (get_method j key default)).
Proof. destruct j; constructor. Qed.

Lemma quiet_split_method (j : json) : quiet (calls (split_method j)).
Proof. destruct j; constructor. Qed.

Lemma quiet_items_method (j : json) : quiet (calls (items_method j)).
Proof. destruct j; constructor. Qed.

Lemma quiet_iterate (j : json) : quiet (calls (iterate j)).
Proof. destruct j; constructor. Qed.

Lemma quiet_mapM {A B : Type} (f : A -> M B) (l : list A) :
  (forall a, In a l -> quiet (calls (f a))) -> quiet (calls (mapM f l)).
Proof.
  induction l as [|a l IH]; intros H; [constructor|].
  cbn [mapM]. apply quiet_bind; [apply H; now left|]. intros b.
  apply quiet_bind; [apply IH; intros; apply H; now right|]. intros bs.
  constructor.
Qed.

Create HintDb quiet.
#[local] Hint Resolve quiet_nil quiet_or_raise quiet_getitem quiet_get_method
  quiet_split_method quiet_items_method quiet_iterate : quiet.

Ltac quiet_steps :=
  repeat (apply quiet_bind; [auto with quiet|intros ?]); auto with quiet.

Section Quiet.

Variable api : transport.

Lemma quiet_APIResourceList (name : string) :
  quiet (calls (APIResourceList api name)).
Proof.
  unfold APIResourceList. apply quiet_bind; [repeat constructor|intros ?].
  quiet_steps; try constructor.
Qed.

Lemma quiet_id_loop (entries : list json) (id_ : value) :
  quiet (calls (_convert_id_to_name_loop entries id_)).
Proof.
  induction entries as [|e rest IH]; [constructor|].
  cbn [_convert_id_to_name_loop]. unfold item_from_end, str_. quiet_steps.
  destruct (String.eqb _ _); [|exact IH]. quiet_steps; try constructor.
Qed.

Lemma quiet_name_loop (entries : list json) (name : string) :
  quiet (calls (_convert_name_to_id_loop entries name)).
Proof.
  induction entries as [|e rest IH]; [constructor|].
  cbn [_convert_name_to_id_loop]. quiet_steps.
  destruct (eq_str _ _); [|exact IH].
  unfold item_from_end, int_. quiet_steps; try constructor.
Qed.

Lemma quiet_name_id_convert (resource_type : string) (name_or_id : value) :
  quiet (calls (name_id_convert api resource_type name_or_id)).
Proof.
  unfold name_id_convert, _convert_id_to_name, _convert_name_to_id.
  destruct name_or_id; try constructor;
    (apply quiet_bind; [|intros ?; constructor]);
    (apply quiet_bind; [apply quiet_APIResourceList|intros ?]);
    first [apply quiet_id_loop|apply quiet_name_loop].
Qed.

Lemma quiet_lazy (resource_type : string) (resource_name : value) :
  quiet (calls (NamedAPIResource_lazy api resource_type resource_name)).
Proof.
  pose proof (quiet_name_id_convert resource_type resource_name) as H.
  unfold NamedAPIResource_lazy, new, __init__fields, obj_bind, lift, modify, str_.
  destruct (name_id_convert api resource_type resource_name) as [[e|[name id_]] t];
    [exact H|].
  cbn [fst snd calls] in *.
  destruct (py_str id_); simpl; rewrite ?app_nil_r; exact H.
Qed.

Lemma quiet_APIMetadata_loop (f : json -> M value) (items : dict json) :
  (forall k v, In (k, v) items -> quiet (calls (f v))) ->
  forall data, quiet (calls (APIMetadata_loop f items data)).
Proof.
  induction items as [|[k v] rest IH]; intros Hf data; [constructor|].
  cbn [APIMetadata_loop].
  assert (Hrest : forall data', quiet (calls (APIMetadata_loop f rest data'))).
  { apply IH. intros k' v' Hin. apply (Hf k'). now right. }
  destruct v; try apply Hrest.
  apply quiet_bind; [apply (Hf k); now left|]. intros x. apply Hrest.
Qed.

Lemma quiet_load_loop (f : json -> M value) (items : dict json) :
  (forall j, quiet (calls (f j))) ->
  forall data, quiet (calls (_load_loop f items data)).
Proof.
  intros Hf. induction items as [|[k v] rest IH]; intros data; [constructor|].
  cbn [_load_loop]. destruct v; try apply IH.
  - apply quiet_bind; [apply quiet_mapM; auto|]. intros xs. apply IH.
  - apply quiet_bind; [apply Hf|]. intros x. apply IH.
Qed.

(** A conversion fetches listings only. *)
Lemma quiet_make_obj (d : json) : quiet (calls (_make_obj api d)).
Proof.
  induction d as [| | | | |l IH|kvs IH] using json_ind; try constructor.
  cbn [_make_obj]. destruct (dict_has "url" kvs).
  - unfold item_from_end. quiet_steps. apply quiet_lazy.
  - apply quiet_bind; [|intros data; constructor].
    apply quiet_APIMetadata_loop. intros k v Hin.
    clear - IH Hin. induction IH as [|kv Pkv rest _ IHrest]; [contradiction|].
    destruct Hin as [->|Hin]; [|now apply IHrest].
    now inversion Pkv.
Qed.

(** A load fetches its payload once. *)
Lemma load_calls_get_data_once (self : dict value) :
  get_data_calls (snd (_load api self)) <= 1.
Proof.
  unfold _load, obj_bind.
  destruct (self_attr "resource_type" self) as [[[e1|rt] s1] t1] eqn:E1.
  - unfold self_attr, method_of, obj_raise in E1.
    destruct (dict_get "resource_type" self); [discriminate|].
    destruct (dict_get __loaded self) as [flag|];
      [destruct (truthy flag); [|destruct (dict_get "_load" self)]|];
      injection E1 as _ _ <-; unfold get_data_calls; simpl; lia.
  - assert (Ht1 : t1 = []).
    { unfold self_attr, method_of, obj_raise in E1.
      destruct (dict_get "resource_type" self); [now injection E1|].
      destruct (dict_get __loaded self) as [flag|];
        [destruct (truthy flag); [|destruct (dict_get "_load" self)]|];
        discriminate. }
    subst t1.
    destruct (self_attr "id_" s1) as [[[e2|id_] s2] t2] eqn:E2.
    + unfold self_attr, method_of, obj_raise in E2.
      destruct (dict_get "id_" s1); [discriminate|].
      destruct (dict_get __loaded s1) as [flag|];
        [destruct (truthy flag); [|destruct (dict_get "_load" s1)]|];
        injection E2 as _ _ <-; unfold get_data_calls; simpl; lia.
    + assert (Ht2 : t2 = []).
      { unfold self_attr, method_of, obj_raise in E2.
        destruct (dict_get "id_" s1); [now injection E2|].
        destruct (dict_get __loaded s1) as [flag|];
          [destruct (truthy flag); [|destruct (dict_get "_load" s1)]|];
          discriminate. }
      subst t2. unfold lift, call_get_data, modify. cbn [fst snd app].
      destruct (get_data api rt id_) as [e3|data]; [unfold get_data_calls; simpl; lia|].
      destruct (items_method data) as [[e4|items] t4] eqn:E4.
      * pose proof (quiet_items_method data) as Hq. rewrite E4 in Hq.
        cbn [fst snd calls] in *.
        change (Call_get_data rt id_ :: t4) with ([Call_get_data rt id_] ++ t4).
        rewrite get_data_calls_app, (quiet_count _ Hq). simpl. lia.
      * pose proof (quiet_items_method data) as Hq. rewrite E4 in Hq.
        pose proof (quiet_load_loop (_make_obj api) items quiet_make_obj
                      (of_json_dict items)) as Hl.
        cbn [fst snd calls] in *.
        destruct (_load_loop (_make_obj api) items (of_json_dict items))
          as [[e5|fields] t5]; cbn [fst snd calls app] in *;
          rewrite ?app_nil_r;
          change (Call_get_data rt id_ :: t4 ++ t5)
            with ([Call_get_data rt id_] ++ t4 ++ t5);
          rewrite !get_data_calls_app, (quiet_count _ Hq), (quiet_count _ Hl);
          simpl; lia.
Qed.

(** So does an attribute access, at most. *)
Lemma getattr_calls_get_data_once (attr : string) (self : dict value) :
  get_data_calls (snd (getattr api attr self)) <= 1.
Proof.
  unfold getattr. destruct (__getattribute__ self attr); [|unfold get_data_calls; simpl; lia].
  unfold __getattr__, obj_bind.
  destruct (self_attr __loaded self) as [[[e1|flag] s1] t1] eqn:E1.
  - unfold self_attr, method_of, obj_raise in E1.
    destruct (dict_get __loaded self) as [v|]; [discriminate|].
    injection E1 as _ _ <-. unfold get_data_calls; simpl; lia.
  - assert (Ht1 : t1 = []).
    { unfold self_attr in E1.
      destruct (dict_get __loaded self); [now injection E1|discriminate]. }
    subst t1. cbn [app].
    destruct (truthy flag); cbn [negb]; [unfold get_data_calls; simpl; lia|].
    unfold method_of at 1.
    destruct (dict_get "_load" s1); [unfold get_data_calls; simpl; lia|].
    pose proof (load_calls_get_data_once s1) as Hload.
    destruct (_load api s1) as [[[e2|u] s2] t2]; [exact Hload|].
    unfold modify, method_of. cbn [fst snd app] in *.
    destruct (dict_get "__getattribute__" _); cbn [snd];
      rewrite ?app_nil_r; exact Hload.
Qed.

End Quiet.

(** ** Loading and attribute access *)

Lemma reads_self_attr (attr : string) : reads (self_attr attr).
Proof.
  intros self r self' t. unfold self_attr.
  destruct (dict_get attr self); [now intros [= _ <- _]|].
  destruct (dict_get __loaded self) as [flag|]; [|now intros [= _ <- _]].
  destruct (truthy flag); [now intros [= _ <- _]|].
  unfold method_of, obj_raise.
  destruct (dict_get "_load" self); now intros [= _ <- _].
Qed.

Lemma reads_lift {A : Type} (m : M A) : reads (lift m).
Proof. intros self r self' t. unfold lift. now intros [= _ <- _]. Qed.

Lemma fails_clean_modify (f : dict value -> dict value) : fails_clean (modify f).
Proof. intros self e self' t. unfold modify. discriminate. Qed.

(** A failure after reads only has changed nothing. *)
Lemma fails_clean_after_read {A B : Type} (m : Obj A) (k : A -> Obj B) :
  reads m -> (forall a, fails_clean (k a)) -> fails_clean (obj_bind m k).
Proof.
  intros Hm Hk self e self' t. unfold obj_bind.
  destruct (m self) as [[[e1|a] s1] t1] eqn:E1.
  - intros [= _ <- _]. exact (Hm _ _ _ _ E1).
  - rewrite (Hm _ _ _ _ E1).
    destruct (k a self) as [[r2 s2] t2] eqn:E2.
    intros [= -> -> _]. exact (Hk a _ _ _ _ E2).
Qed.

Section Loading.

Variable api : transport.

(** [_load] reads, fetches and converts before its only assignment. *)
Lemma fails_clean_load : fails_clean (_load api).
Proof.
  unfold _load.
  repeat (apply fails_clean_after_read;
          [first [apply reads_self_attr | apply reads_lift]|intros ?]).
  apply fails_clean_modify.
Qed.

(** A load that completes has made one update of the instance. *)
Lemma load_is_one_update (self self' : dict value) (t : trace) :
  _load api self = (inr tt, self', t) ->
  exists fields, self' = dict_update self fields.
Proof.
  unfold _load, obj_bind.
  destruct (self_attr "resource_type" self) as [[[e1|rt] s1] t1] eqn:E1;
    [discriminate|].
  rewrite (reads_self_attr _ _ _ _ _ E1).
  destruct (self_attr "id_" self) as [[[e2|id_] s2] t2] eqn:E2;
    [discriminate|].
  rewrite (reads_self_attr _ _ _ _ _ E2). unfold lift, modify.
  destruct (call_get_data api rt id_) as [[e3|data] t3]; [discriminate|].
  cbn [fst snd].
  destruct (items_method data) as [[e4|items] t4]; [discriminate|].
  cbn [fst snd].
  destruct (_load_loop (_make_obj api) items (of_json_dict items))
    as [[e5|fields] t5]; [discriminate|].
  cbn [fst snd]. intros [= <- _]. now exists fields.
Qed.

Lemma getattribute_hit (self : dict value) (attr : string) (v : value) :
  dict_get attr self = Some v -> mem attr data_descriptors = false ->
  __getattribute__ self attr = inr v.
Proof. intros Hv Hd. unfold __getattribute__. now rewrite Hd, Hv. Qed.

Lemma getattribute_miss (self : dict value) (attr : string) :
  dict_get attr self = None -> resolved_by_class attr = false ->
  __getattribute__ self attr = inl (AttributeError (lookup_message attr)).
Proof.
  intros Hv Hc. apply orb_false_iff in Hc as [Hd Hn].
  unfold __getattribute__. now rewrite Hd, Hv, Hn.
Qed.

Lemma getattribute_error_inv (self : dict value) (attr : string) (e : exn) :
  __getattribute__ self attr = inl e ->
  dict_get attr self = None /\ resolved_by_class attr = false.
Proof.
  unfold __getattribute__, resolved_by_class.
  destruct (mem attr data_descriptors); [discriminate|].
  destruct (dict_get attr self); [discriminate|].
  destruct (mem attr class_namespace); [discriminate|]. auto.
Qed.

(** On a loaded instance no access changes anything or calls anyone. *)
Lemma getattr_loaded (self : dict value) (flag : value) (attr : string) :
  dict_get __loaded self = Some flag -> truthy flag = true ->
  exists r, getattr api attr self = (r, self, []).
Proof.
  intros Hflag Ht. unfold getattr.
  destruct (__getattribute__ self attr); [|now eexists].
  unfold __getattr__, obj_bind, self_attr, obj_raise.
  rewrite Hflag, Ht. simpl. now eexists.
Qed.

Lemma accesses_loaded (self : dict value) (flag : value) (attrs : list string) :
  dict_get __loaded self = Some flag -> truthy flag = true ->
  exists rs, accesses api attrs self = (rs, self, []).
Proof.
  intros Hflag Ht. induction attrs as [|attr attrs [rs IH]]; simpl.
  - now eexists.
  - destruct (getattr_loaded self flag attr Hflag Ht) as [r ->].
    rewrite IH. now eexists.
Qed.

(** An access that misses on an instance that is not loaded: load, set
    the flag, look up again. *)
Lemma getattr_unloaded_miss (self : dict value) (flag : value) (attr : string) :
  dict_get attr self = None -> resolved_by_class attr = false ->
  dict_get __loaded self = Some flag -> truthy flag = false ->
  dict_get "_load" self = None ->
  getattr api attr self
  = match _load api self with
    | (inl e, s, t) => (inl e, s, t)
    | (inr _, s, t) =>
        let s' := dict_set __loaded (VBool true) s in
        (match dict_get "__getattribute__" s' with
         | Some _ => inl TypeError
         | None =>
             match dict_get attr s' with
             | Some v => inr v
             | None => inl (AttributeError (lookup_message attr))
             end
         end, s', t)
    end.
Proof.
  intros Hattr Hclass Hflag Ht Hmethod. unfold getattr.
  rewrite (getattribute_miss self attr Hattr Hclass).
  unfold __getattr__, obj_bind, self_attr, modify, method_of.
  rewrite Hflag. cbn beta iota. rewrite Ht. cbn beta iota delta [negb].
  rewrite Hmethod.
  destruct (_load api self) as [[[e|u] s] t]; [reflexivity|].
  cbn [app]. cbv zeta.
  destruct (dict_get "__getattribute__" (dict_set __loaded (VBool true) s));
    [now rewrite app_nil_r|].
  rewrite app_nil_r. f_equal. f_equal.
  apply orb_false_iff in Hclass as [Hd Hn].
  unfold __getattribute__. rewrite Hd.
  destruct (dict_get attr (dict_set __loaded (VBool true) s)); [reflexivity|].
  now rewrite Hn.
Qed.

Lemma append_empty (s : string) : (s ++ "")%string = s.
Proof. induction s as [|c s IH]; simpl; [reflexivity|now rewrite IH]. Qed.

Lemma mentions_suffix (pre s : string) : mentions (pre ++ s) s.
Proof. exists pre, EmptyString. now rewrite append_empty. Qed.

Lemma mentions_middle (pre s post : string) : mentions (pre ++ s ++ post) s.
Proof. now exists pre, post. Qed.

(** C10: when [get_data] or a conversion raises during [_load], the
    instance is left as it was, dictionary and flag: [_load] hands back the
    very dictionary it got, and so do [__getattr__] and the attribute access
    that triggered the load, which raise the same exception before the flag
    is set.  A load that completes has made a single update of the
    instance, with the converted payload. *)
Theorem failed_load_changes_nothing (self : dict value) :
  (forall e self' t,
      _load api self = (inl e, self', t) ->
      self' = self /\
      (forall attr flag,
          dict_get __loaded self = Some flag -> truthy flag = false ->
          dict_get "_load" self = None ->
          __getattr__ api attr self = (inl e, self, t)) /\
      (forall attr flag,
          dict_get attr self = None -> resolved_by_class attr = false ->
          dict_get __loaded self = Some flag -> truthy flag = false ->
          dict_get "_load" self = None ->
          getattr api attr self = (inl e, self, t))) /\
  (forall self' t,
      _load api self = (inr tt, self', t) ->
      exists fields, self' = dict_update self fields).
Proof.
  split; [|apply load_is_one_update].
  intros e self' t Hload.
  pose proof (fails_clean_load _ _ _ _ Hload) as ->.
  split; [reflexivity|]. split.
  - intros attr flag Hflag Ht Hmethod.
    unfold __getattr__, obj_bind, self_attr, method_of.
    rewrite Hflag. cbn beta iota. rewrite Ht. cbn beta iota delta [negb].
    now rewrite Hmethod, Hload.
  - intros attr flag Hattr Hclass Hflag Ht Hmethod.
    rewrite (getattr_unloaded_miss self flag attr Hattr Hclass Hflag Ht Hmethod).
    now rewrite Hload.
Qed.

(** C3: an instance constructed lazily has its flag false; an access to
    one of the four fields set by the construction returns the field, calls
    nobody and leaves the instance, flag included, as it was; an access
    after which the flag is true was an access to a name that the
    construction did not set, and after such an access whose load completes
    the flag is true. *)
Theorem lazy_instance_loads_on_first_miss (resource_type : string)
  (resource_name : value) (self : dict value) (t : trace) :
  NamedAPIResource api resource_type resource_name true
  = (inr (VResource self), t) ->
  dict_get __loaded self = Some (VBool false) /\
  (forall attr, In attr ["name"; "resource_type"; "id_"; "url"] ->
     exists v, dict_get attr self = Some v /\
               getattr api attr self = (inr v, self, [])) /\
  (forall attr r self' t',
      getattr api attr self = (r, self', t') ->
      dict_get __loaded self' = Some (VBool true) ->
      dict_get attr self = None /\ resolved_by_class attr = false) /\
  (forall attr self1 t1,
      dict_get attr self = None -> resolved_by_class attr = false ->
      _load api self = (inr tt, self1, t1) ->
      exists r self',
        getattr api attr self = (r, self', t1) /\
        dict_get __loaded self' = Some (VBool true)).
Proof.
  intros Hnew.
  apply lazy_construction_inv in Hnew as (name & id_ & s & _ & _ & ->).
  assert (Hflag : dict_get __loaded
                    (fresh_instance api resource_type name id_ s)
                  = Some (VBool false)) by reflexivity.
  split; [exact Hflag|]. split; [|split].
  - intros attr Hin. unfold getattr.
    repeat (destruct Hin as [<-|Hin]; [eexists; split; reflexivity|]).
    contradiction.
  - intros attr r self' t' Hget Hloaded. unfold getattr in Hget.
    destruct (__getattribute__ (fresh_instance api resource_type name id_ s) attr)
      as [e|v] eqn:E.
    + now apply getattribute_error_inv in E.
    + injection Hget as _ <- _. rewrite Hflag in Hloaded. discriminate.
  - intros attr self1 t1 Hattr Hclass Hload.
    rewrite (getattr_unloaded_miss _ (VBool false) attr Hattr Hclass Hflag
               eq_refl eq_refl).
    rewrite Hload. cbv zeta. do 2 eexists. split; [reflexivity|].
    apply dict_get_set_same.
Qed.

(** C4: an access to a name that the instance lacks and the class does
    not answer for.  On an instance that is not loaded it runs [_load]; when
    that raises, so does the access; when that completes, the flag is set
    and the name is looked up again, which gives the field or raises an
    [AttributeError] naming it.  On a loaded instance it raises an
    [AttributeError] naming the field at once: nothing is called and
    nothing changes, in this access and in any run of accesses after it.
    Either way the access calls [get_data] once at most.
    (No field of the instance or of the payload is named like the two
    methods that [__getattr__] calls on [self].) *)
Theorem missing_field_access (self : dict value) (flag : value) (attr : string) :
  dict_get attr self = None -> resolved_by_class attr = false ->
  dict_get __loaded self = Some flag ->
  (truthy flag = false ->
   dict_get "_load" self = None ->
   (forall s t, _load api self = (inr tt, s, t) ->
                dict_get "__getattribute__" s = None) ->
   getattr api attr self
   = match _load api self with
     | (inl e, s, t) => (inl e, s, t)
     | (inr _, s, t) =>
         let s' := dict_set __loaded (VBool true) s in
         (match dict_get attr s' with
          | Some v => inr v
          | None => inl (AttributeError (lookup_message attr))
          end, s', t)
     end) /\
  (truthy flag = true ->
   getattr api attr self
   = (inl (AttributeError (no_attribute_message attr)), self, []) /\
   forall attrs, exists rs, accesses api attrs self = (rs, self, [])) /\
  mentions (lookup_message attr) attr /\
  mentions (no_attribute_message attr) attr /\
  get_data_calls (snd (getattr api attr self)) <= 1.
Proof.
  intros Hattr Hclass Hflag. split; [|split; [|split; [|split]]].
  - intros Ht Hmethod Hplain.
    rewrite (getattr_unloaded_miss self flag attr Hattr Hclass Hflag Ht Hmethod).
    destruct (_load api self) as [[[e|[]] s] t]; [reflexivity|].
    cbv zeta. rewrite dict_get_set_other by discriminate.
    now rewrite (Hplain s t eq_refl).
  - intros Ht. split; [|intros attrs; now apply (accesses_loaded self flag)].
    unfold getattr. rewrite (getattribute_miss self attr Hattr Hclass).
    unfold __getattr__, obj_bind, self_attr, obj_raise.
    now rewrite Hflag, Ht.
  - apply mentions_middle.
  - apply mentions_suffix.
  - apply getattr_calls_get_data_once.
Qed.

End Loading.

Lemma failed_load_changes_nothing_witness :
  _load demo (berry_instance "chesto" 2)
  = (inl IndexError, berry_instance "chesto" 2,
     [Call_get_data (VStr "berry") (VInt 2);
      Call_get_resource "berry-firmness"]) /\
  getattr demo "firmness" (berry_instance "chesto" 2)
  = (inl IndexError, berry_instance "chesto" 2,
     [Call_get_data (VStr "berry") (VInt 2);
      Call_get_resource "berry-firmness"]).
Proof.
  assert (Hload : _load demo (berry_instance "chesto" 2)
                  = (inl IndexError, berry_instance "chesto" 2,
                     [Call_get_data (VStr "berry") (VInt 2);
                      Call_get_resource "berry-firmness"]))
    by reflexivity.
  split; [exact Hload|].
  destruct (failed_load_changes_nothing demo (berry_instance "chesto" 2))
    as [Hfail _].
  destruct (Hfail _ _ _ Hload) as (_ & _ & Hget).
  apply (Hget "firmness" (VBool false)); reflexivity.
Defined.

Lemma lazy_instance_loads_on_first_miss_witness :
  NamedAPIResource demo "berry" (VInt 1) true
  = (inr (VResource (berry_instance "cheri" 1)), [Call_get_resource "berry"]) /\
  getattr demo "id_" (berry_instance "cheri" 1)
  = (inr (VInt 1), berry_instance "cheri" 1, []).
Proof.
  assert (Hnew : NamedAPIResource demo "berry" (VInt 1) true
                 = (inr (VResource (berry_instance "cheri" 1)),
                    [Call_get_resource "berry"])) by reflexivity.
  split; [exact Hnew|].
  destruct (lazy_instance_loads_on_first_miss demo _ _ _ _ Hnew)
    as (_ & Hfields & _).
  destruct (Hfields "id_") as (v & Hv & ->); [simpl; tauto|].
  injection Hv as <-. reflexivity.
Defined.

(** The berry [cheri], loaded. *)
Lemma missing_field_access_witness :
  exists loaded,
    getattr demo "color" (berry_instance "cheri" 1)
    = (inl (AttributeError "'NamedAPIResource' object has no attribute 'color'"),
       loaded,
       [Call_get_data (VStr "berry") (VInt 1);
        Call_get_resource "berry-firmness"]) /\
    dict_get "flavors" loaded = Some (VList [VInt 1; VInt 2; VInt 3]) /\
    getattr demo "color" loaded
    = (inl (AttributeError
              "<class 'pokebase.interface.NamedAPIResource'> object has no attribute color"),
       loaded, []).
Proof.
  destruct (missing_field_access demo (berry_instance "cheri" 1) (VBool false)
              "color" eq_refl eq_refl eq_refl) as (Hfirst & _).
  eexists. split.
  { rewrite (Hfirst eq_refl eq_refl); [reflexivity|].
    intros s t [= <- _]. reflexivity. }
  split; [reflexivity|].
  match goal with
  | |- getattr demo "color" ?s = _ =>
      destruct (missing_field_access demo s (VBool true) "color"
                  eq_refl eq_refl eq_refl) as (_ & Hagain & _)
  end.
  destruct (Hagain eq_refl) as [-> _]. reflexivity.
Defined.

(** * Further properties of the module *)

(** ** Who is called, and how often *)

Lemma silent_ret {A : Type} (a : A) : silent (ret a).
Proof. reflexivity. Qed.

Lemma silent_raise {A : Type} (e : exn) : silent (@raise A e).
Proof. reflexivity. Qed.

Lemma silent_bind {A B : Type} (m : M A) (k : A -> M B) :
  silent m -> (forall a, silent (k a)) -> silent (bind m k).
Proof.
  unfold silent. destruct m as [[e|a] t]; intros Hm Hk; [exact Hm|].
  rewrite bind_value. cbn [calls snd] in *. now rewrite Hm, Hk.
Qed.

Lemma silent_or_raise {A : Type} (o : option A) (e : exn) :
  silent (or_raise o e).
Proof. now destruct o. Qed.

Lemma silent_getitem (j : json) (key : string) : silent (getitem j key).
Proof. destruct j; try reflexivity. apply silent_or_raise. Qed.

Lemma silent_get_method (j : json) (key : string) (default : json) :
  silent (get_method j key default).
Proof. now destruct j. Qed.

Lemma silent_split_method (j : json) : silent (split_method j).
Proof. now destruct j. Qed.

Lemma silent_iterate (j : json) : silent (iterate j).
Proof. now destruct j. Qed.

Create HintDb silent.
#[local] Hint Resolve silent_ret silent_raise silent_or_raise silent_getitem
  silent_get_method silent_split_method silent_iterate : silent.

Ltac silent_steps :=
  repeat (apply silent_bind; [auto with silent|intros ?]); auto with silent.

(** A computation that starts with one call and goes on silently has made
    that call and no other. *)
Lemma calls_after_one_call {A B : Type} (r : exn + A) (ev : event)
  (k : A -> M B) :
  (forall a, silent (k a)) -> calls (bind (r, [ev]) k) = [ev].
Proof.
  intros Hk. destruct r as [e|a]; [reflexivity|].
  rewrite bind_value. cbn [calls snd]. now rewrite Hk.
Qed.

Section Calls.

Variable api : transport.

Lemma silent_id_loop (entries : list json) (id_ : value) :
  silent (_convert_id_to_name_loop entries id_).
Proof.
  induction entries as [|e rest IH]; [reflexivity|].
  cbn [_convert_id_to_name_loop]. unfold item_from_end, str_. silent_steps.
  destruct (String.eqb _ _); [|exact IH]. silent_steps.
Qed.

Lemma silent_name_loop (entries : list json) (name : string) :
  silent (_convert_name_to_id_loop entries name).
Proof.
  induction entries as [|e rest IH]; [reflexivity|].
  cbn [_convert_name_to_id_loop]. silent_steps.
  destruct (eq_str _ _); [|exact IH].
  unfold item_from_end, int_. silent_steps.
Qed.

Lemma calls_APIResourceList (name : string) :
  calls (APIResourceList api name) = [Call_get_resource name].
Proof.
  unfold APIResourceList, call_get_resource.
  apply calls_after_one_call. intros response. silent_steps.
Qed.

Lemma calls_convert_id (resource_type : string) (id_ : value) :
  calls (_convert_id_to_name api resource_type id_)
  = [Call_get_resource resource_type].
Proof.
  unfold _convert_id_to_name.
  pose proof (calls_APIResourceList resource_type) as Hnew.
  destruct (APIResourceList api resource_type) as [[e|index] t];
    cbn [calls snd] in Hnew; subst t; [reflexivity|].
  rewrite bind_value. cbn [calls snd]. now rewrite silent_id_loop.
Qed.

Lemma calls_convert_name (resource_type name : string) :
  calls (_convert_name_to_id api resource_type name)
  = [Call_get_resource resource_type].
Proof.
  unfold _convert_name_to_id.
  pose proof (calls_APIResourceList resource_type) as Hnew.
  destruct (APIResourceList api resource_type) as [[e|index] t];
    cbn [calls snd] in Hnew; subst t; [reflexivity|].
  rewrite bind_value. cbn [calls snd]. now rewrite silent_name_loop.
Qed.

Lemma calls_name_id_convert (resource_type : string) (name_or_id : value) :
  calls (name_id_convert api resource_type name_or_id)
  = (if resolvable name_or_id then [Call_get_resource resource_type] else []).
Proof.
  unfold name_id_convert.
  destruct name_or_id; try reflexivity; cbn [resolvable].
  - pose proof (calls_convert_id resource_type (VBool b)) as H.
    destruct (_convert_id_to_name api resource_type (VBool b)) as [[e|v] t];
      cbn [calls snd] in H; subst t; [reflexivity|now rewrite bind_value].
  - pose proof (calls_convert_id resource_type (VInt z)) as H.
    destruct (_convert_id_to_name api resource_type (VInt z)) as [[e|v] t];
      cbn [calls snd] in H; subst t; [reflexivity|now rewrite bind_value].
  - pose proof (calls_convert_name resource_type s) as H.
    destruct (_convert_name_to_id api resource_type s) as [[e|v] t];
      cbn [calls snd] in H; subst t; [reflexivity|now rewrite bind_value].
Qed.

Lemma calls_lazy_construction (resource_type : string) (name_or_id : value) :
  calls (NamedAPIResource api resource_type name_or_id true)
  = calls (name_id_convert api resource_type name_or_id).
Proof.
  destruct (name_id_convert api resource_type name_or_id)
    as [[e|[name id_]] t] eqn:Hc.
  - unfold NamedAPIResource, new, __init__, __init__fields, obj_bind, lift.
    now rewrite Hc.
  - destruct (name_id_convert_rendered api _ _ _ _ _ Hc) as [s Hs].
    now rewrite (lazy_construction api _ _ _ _ _ _ Hc Hs).
Qed.

(** X1: the resolver fetches the listing of the category once, whatever
    comes of it, and nothing else; on a value that is neither an integer nor
    a string it fetches nothing.  A lazy construction calls what its
    resolution calls: it never fetches a payload. *)
Theorem resolution_fetches_listing_once (resource_type : string)
  (name_or_id : value) :
  calls (name_id_convert api resource_type name_or_id)
  = (if resolvable name_or_id then [Call_get_resource resource_type] else []) /\
  calls (NamedAPIResource api resource_type name_or_id true)
  = calls (name_id_convert api resource_type name_or_id).
Proof.
  split; [apply calls_name_id_convert|apply calls_lazy_construction].
Qed.

(** A resolution that raises makes the construction raise the same way,
    lazy or not, with the same calls. *)
Lemma construction_fails (resource_type : string) (resource_name : value)
  (e : exn) (t : trace) (lazy_load : bool) :
  name_id_convert api resource_type resource_name = (inl e, t) ->
  NamedAPIResource api resource_type resource_name lazy_load = (inl e, t).
Proof.
  intros Hc.
  unfold NamedAPIResource, new, __init__, __init__fields, obj_bind, lift.
  now rewrite Hc.
Qed.

(** X2: when the transport layer raises on the listing of a category, so do
    the index, the resolver, every construction in that category and the
    conversion of every reference to it, after that one call. *)
Theorem listing_failure_is_fatal (category : string) (e : exn) :
  get_resource api category = inl e ->
  APIResourceList api category = (inl e, [Call_get_resource category]) /\
  (forall name_or_id lazy_load,
      resolvable name_or_id = true ->
      name_id_convert api category name_or_id
      = (inl e, [Call_get_resource category]) /\
      NamedAPIResource api category name_or_id lazy_load
      = (inl e, [Call_get_resource category])) /\
  (forall d pre id,
      dict_get "url" d = Some (JStr (reference_url pre category id)) ->
      free_of slash category = true -> free_of slash id = true ->
      _make_obj api (JDict d) = (inl e, [Call_get_resource category])).
Proof.
  intros Hget.
  assert (Hnew : APIResourceList api category
                 = (inl e, [Call_get_resource category])).
  { unfold APIResourceList, call_get_resource. now rewrite Hget. }
  assert (Hres : forall v, resolvable v = true ->
             name_id_convert api category v
             = (inl e, [Call_get_resource category])).
  { intros v Hv. unfold name_id_convert, _convert_id_to_name, _convert_name_to_id.
    destruct v; try discriminate Hv; now rewrite Hnew. }
  split; [exact Hnew|]. split.
  - intros v lazy_load Hv. split; [now apply Hres|].
    apply construction_fails. now apply Hres.
  - intros d pre id Hurl Hc Hi.
    rewrite (make_obj_reference api d pre category id Hurl Hc Hi).
    apply construction_fails. now apply Hres.
Qed.

(** X3: a name or id that is neither an integer nor a string leaves [name]
    unbound in the resolver: the construction raises [UnboundLocalError]
    before anybody is called, lazy or not. *)
Theorem construction_needs_int_or_str (resource_type : string)
  (name_or_id : value) (lazy_load : bool) :
  resolvable name_or_id = false ->
  NamedAPIResource api resource_type name_or_id lazy_load
  = (inl (UnboundLocalError "name"), []).
Proof.
  intros Hv. apply construction_fails. unfold name_id_convert.
  now destruct name_or_id.
Qed.

Lemma index_from_end_none {A : Type} (l : list A) (k : nat) :
  index_from_end l (S k) = None <-> length l <= k.
Proof.
  unfold index_from_end. cbn [pred].
  now rewrite nth_error_None, length_rev.
Qed.

(** X4: a reference whose url is not a string is not converted:
    [_make_obj] raises the [AttributeError] of the missing [split] before
    anybody is called.  A reference whose url is a string is refused with
    [IndexError], before anybody is called, exactly when the url has fewer
    than three pieces. *)
Theorem make_obj_malformed_url (d : dict json) (url : json) :
  dict_get "url" d = Some url ->
  match url with
  | JStr u =>
      segments u < 3 <-> _make_obj api (JDict d) = (inl IndexError, [])
  | _ => _make_obj api (JDict d) = (inl (no_attribute url "split"), [])
  end.
Proof.
  intros Hurl.
  assert (Hstart : _make_obj api (JDict d)
                   = (segs <- split_method url ;;
                      id_ <- item_from_end segs 2 ;;
                      segs' <- split_method url ;;
                      location <- item_from_end segs' 3 ;;
                      NamedAPIResource_lazy api location (VStr id_))).
  { cbn [_make_obj getitem]. unfold dict_has. rewrite Hurl.
    now autorewrite with run. }
  rewrite Hstart. clear Hstart.
  destruct url as [| | | |u| |]; try reflexivity.
  cbn [split_method]. autorewrite with run. unfold item_from_end, segments.
  destruct (index_from_end (split slash u) 2) as [id_|] eqn:E2.
  - autorewrite with run.
    destruct (index_from_end (split slash u) 3) as [location|] eqn:E3.
    + autorewrite with run. split.
      * intros Hlen.
        assert (Hnone : index_from_end (split slash u) 3 = None)
          by (apply index_from_end_none; lia).
        congruence.
      * intros Hres.
        pose proof (calls_lazy_construction location (VStr id_)) as Hcalls.
        rewrite <- NamedAPIResource_lazy_eq, Hres, calls_name_id_convert in Hcalls.
        discriminate Hcalls.
    + apply index_from_end_none in E3. split; [reflexivity|intros _; lia].
  - apply index_from_end_none in E2. split; [reflexivity|intros _; lia].
Qed.

End Calls.

Lemma listing_failure_is_fatal_witness :
  NamedAPIResource demo "pokemon" (VStr "pikachu") false
  = (inl (TransportError "404"), [Call_get_resource "pokemon"]).
Proof.
  destruct (listing_failure_is_fatal demo "pokemon" (TransportError "404")
              eq_refl) as (_ & Hres & _).
  now destruct (Hres (VStr "pikachu") false eq_refl).
Defined.

Lemma construction_needs_int_or_str_witness :
  NamedAPIResource demo "berry" (VFloat (S754_zero false)) false
  = (inl (UnboundLocalError "name"), []).
Proof.
  now apply (construction_needs_int_or_str demo "berry"
               (VFloat (S754_zero false)) false).
Defined.

Lemma make_obj_malformed_url_witness :
  segments "nowhere" < 3 /\
  _make_obj demo (JDict [("url", JStr "nowhere")]) = (inl IndexError, []).
Proof.
  assert (Hlen : segments "nowhere" < 3) by (vm_compute; lia).
  split; [exact Hlen|].
  now apply (make_obj_malformed_url demo [("url", JStr "nowhere")]
               (JStr "nowhere") eq_refl).
Defined.

(** ** The first match decides *)

Section FirstMatch.

Variable api : transport.

(** On an entry with the name, the name loop goes for the id of that entry
    and looks no further. *)
Lemma name_loop_decided (e : json) (post : list json) (name : string) :
  entry_name e = Some (JStr name) ->
  _convert_name_to_id_loop (e :: post) name
  = (url <- get_method e "url" JNull ;;
     segs <- split_method url ;;
     seg <- item_from_end segs 2 ;;
     z <- int_ seg ;;
     ret (VInt z)).
Proof.
  intros Hn. apply entry_name_inv in Hn as (d & -> & Hn).
  cbn [_convert_name_to_id_loop get_method]. rewrite Hn.
  autorewrite with run. simpl eq_str. now rewrite String.eqb_refl.
Qed.

Lemma name_loop_skips (pre rest : list json) (name : string) :
  Forall (fun x => isinstance_dict x = true /\ entry_name x <> Some (JStr name))
    pre ->
  _convert_name_to_id_loop (pre ++ rest) name
  = _convert_name_to_id_loop rest name.
Proof.
  induction 1 as [|x pre [Hd Hx] _ IH]; [reflexivity|].
  simpl app. now rewrite (name_loop_miss x (pre ++ rest) name Hd Hx).
Qed.

Lemma name_id_convert_str_raises (category : string) (entries : list json)
  (n : json) (name : string) (e : exn) :
  serves api category entries n ->
  _convert_name_to_id_loop entries name = raise e ->
  name_id_convert api category (VStr name)
  = (inl e, [Call_get_resource category]).
Proof.
  intros H Hloop. unfold name_id_convert, _convert_name_to_id.
  rewrite (APIResourceList_serves api _ _ _ H), bind_value.
  cbn [__iter__ results]. now rewrite Hloop.
Qed.

Lemma name_id_convert_int_raises (category : string) (entries : list json)
  (n : json) (z : Z) (e : exn) :
  serves api category entries n ->
  _convert_id_to_name_loop entries (VInt z) = raise e ->
  name_id_convert api category (VInt z)
  = (inl e, [Call_get_resource category]).
Proof.
  intros H Hloop. unfold name_id_convert, _convert_id_to_name.
  rewrite (APIResourceList_serves api _ _ _ H), bind_value.
  cbn [__iter__ results]. now rewrite Hloop.
Qed.

(** X5: an id resolves to the name of the first entry with that id
    segment, [None] when that entry has no name; what is listed after that
    entry does not matter. *)
Theorem first_entry_with_id_decides (category : string)
  (pre : list json) (e : json) (post : list json) (n : json) (z : Z) :
  serves api category (pre ++ e :: post) n ->
  Forall (fun x => exists seg, id_segment x = Some seg /\ seg <> str_int z) pre ->
  id_segment e = Some (str_int z) ->
  name_id_convert api category (VInt z)
  = (inr (match entry_name e with Some x => of_json x | None => VNone end,
          VInt z),
     [Call_get_resource category]).
Proof.
  intros Hserves Hpre He.
  apply (name_id_convert_int api category _ n z _ Hserves).
  rewrite (id_loop_found pre e post (VInt z) (str_int z) eq_refl Hpre He).
  now destruct (entry_name e).
Qed.

(** X6: a name resolves through the first entry with that name, whatever
    is listed after it and whether or not the entries before it have urls:
    to the integer that the id segment of that entry spells, with
    [ValueError] when the segment spells none, and with another exception
    when the entry has no id segment. *)
Theorem first_entry_with_name_decides (category : string)
  (pre : list json) (e : json) (post : list json) (n : json) (name : string) :
  serves api category (pre ++ e :: post) n ->
  Forall (fun x => isinstance_dict x = true /\ entry_name x <> Some (JStr name))
    pre ->
  entry_name e = Some (JStr name) ->
  match id_segment e with
  | Some seg =>
      name_id_convert api category (VStr name)
      = (match parse_int seg with
         | Some z => inr (VStr name, VInt z)
         | None => inl ValueError
         end, [Call_get_resource category])
  | None => raises (name_id_convert api category (VStr name))
  end.
Proof.
  intros Hserves Hpre Hn.
  pose proof (name_loop_skips pre (e :: post) name Hpre) as Hskip.
  rewrite (name_loop_decided e post name Hn) in Hskip.
  destruct (entry_name_inv e _ Hn) as (d & -> & Hd).
  cbn [id_segment get_method] in *.
  destruct (dict_get "url" d) as [url|] eqn:Hurl.
  - destruct url as [| | | |u| |];
      try (eexists;
           erewrite (name_id_convert_str_raises category _ n name _ Hserves);
           [reflexivity|rewrite Hskip; reflexivity]).
    autorewrite with run in Hskip. cbn [split_method] in Hskip.
    autorewrite with run in Hskip. unfold item_from_end, int_ in Hskip.
    destruct (index_from_end (split slash u) 2) as [seg|].
    + autorewrite with run in Hskip.
      destruct (parse_int seg) as [z|].
      * autorewrite with run in Hskip.
        now apply (name_id_convert_str api category _ n name (VInt z) Hserves).
      * now apply (name_id_convert_str_raises category _ n name _ Hserves).
    + eexists.
      rewrite (name_id_convert_str_raises category _ n name IndexError Hserves);
        [reflexivity|exact Hskip].
  - eexists.
    erewrite (name_id_convert_str_raises category _ n name _ Hserves);
      [reflexivity|rewrite Hskip; reflexivity].
Qed.

(** X7: the id loop reads the url of every entry it passes: an entry
    without an id segment, met before any entry with the id, makes the
    resolution of the id raise, whatever is listed after it. *)
Theorem id_lookup_stops_at_entry_without_id_segment (category : string)
  (pre : list json) (bad : json) (post : list json) (n : json) (z : Z) :
  serves api category (pre ++ bad :: post) n ->
  Forall (fun x => exists seg, id_segment x = Some seg /\ seg <> str_int z) pre ->
  id_segment bad = None ->
  raises (name_id_convert api category (VInt z)).
Proof.
  intros Hserves Hpre Hbad.
  assert (Hloop : exists e,
             _convert_id_to_name_loop (pre ++ bad :: post) (VInt z) = raise e).
  { clear Hserves.
    induction Hpre as [|x pre (seg & Hx & Hne) _ IH]; simpl app.
    - cbn [_convert_id_to_name_loop].
      destruct bad as [| | | | | |d]; try (eexists; reflexivity).
      cbn [id_segment getitem] in *.
      destruct (dict_get "url" d) as [url|]; [|eexists; reflexivity].
      autorewrite with run.
      destruct url as [| | | |u| |]; try (eexists; reflexivity).
      cbn [split_method]. autorewrite with run. unfold item_from_end.
      rewrite Hbad. eexists. reflexivity.
    - rewrite (id_loop_step x (pre ++ bad :: post) (VInt z) seg (str_int z)
                 Hx eq_refl).
      destruct (String.eqb_spec seg (str_int z)); [contradiction|exact IH]. }
  destruct Hloop as [e Hloop]. exists e.
  now rewrite (name_id_convert_int_raises category _ n z e Hserves Hloop).
Qed.

End FirstMatch.

Lemma first_entry_with_id_decides_witness :
  name_id_convert demo "berry" (VInt 1)
  = (inr (VStr "cheri", VInt 1), [Call_get_resource "berry"]).
Proof.
  apply (first_entry_with_id_decides demo "berry" []
           (entry "cheri" "http://pokeapi.co/api/v2/berry/1/")
           [entry "chesto" "http://pokeapi.co/api/v2/berry/2/"] (JInt 2) 1
           demo_serves_berry); [constructor|reflexivity].
Defined.

Lemma first_entry_with_name_decides_witness :
  name_id_convert demo "berry" (VStr "chesto")
  = (inr (VStr "chesto", VInt 2), [Call_get_resource "berry"]).
Proof.
  apply (first_entry_with_name_decides demo "berry"
           [entry "cheri" "http://pokeapi.co/api/v2/berry/1/"]
           (entry "chesto" "http://pokeapi.co/api/v2/berry/2/") []
           (JInt 2) "chesto" demo_serves_berry); [|reflexivity].
  repeat constructor; discriminate.
Defined.

Lemma gappy_serves_berry : serves gappy "berry" gappy_entries (JInt 2).
Proof. eexists. repeat split; reflexivity. Qed.

Lemma id_lookup_stops_at_entry_without_id_segment_witness :
  raises (name_id_convert gappy "berry" (VInt 2)) /\
  name_id_convert gappy "berry" (VStr "chesto")
  = (inr (VStr "chesto", VInt 2), [Call_get_resource "berry"]).
Proof.
  split; [|reflexivity].
  apply (id_lookup_stops_at_entry_without_id_segment gappy "berry" []
           (JDict [("name", JStr "cheri")])
           [entry "chesto" "http://pokeapi.co/api/v2/berry/2/"] (JInt 2) 2
           gappy_serves_berry); [constructor|reflexivity].
Defined.

(** ** The sequences of a category index *)

Lemma generate_all {A B : Type} (f : A -> M B) (l : list A) (bs : list B) :
  Forall2 (fun a b => result (f a) = inr b) l bs ->
  generate f l = {| yielded := bs; stopped := None |}.
Proof.
  induction 1 as [|a b l bs Hab _ IH]; [reflexivity|].
  cbn [generate]. now rewrite Hab, IH.
Qed.

Lemma generate_stops {A B : Type} (f : A -> M B) (pre : list A) (a : A)
  (post : list A) (bs : list B) (e : exn) :
  Forall2 (fun a b => result (f a) = inr b) pre bs ->
  result (f a) = inl e ->
  generate f (pre ++ a :: post) = {| yielded := bs; stopped := Some e |}.
Proof.
  intros Hpre Ha. induction Hpre as [|x b pre bs Hxb _ IH]; simpl app.
  - cbn [generate]. now rewrite Ha.
  - cbn [generate]. now rewrite Hxb, IH.
Qed.

(** X8: [urls] hands out the [url] field of each entry, in listing order;
    at the first entry that is a dict without a [url] it ends with
    [KeyError], having handed out the urls of the entries before it. *)
Theorem urls_in_listing_order (index : listing) :
  (forall us,
      Forall2 (fun e u => exists d, e = JDict d /\ dict_get "url" d = Some u)
        (results index) us ->
      urls index = {| yielded := us; stopped := None |}) /\
  (forall pre d post us,
      results index = pre ++ JDict d :: post ->
      Forall2 (fun e u => exists d, e = JDict d /\ dict_get "url" d = Some u)
        pre us ->
      dict_get "url" d = None ->
      urls index = {| yielded := us; stopped := Some (KeyError "url") |}).
Proof.
  assert (Hstep : forall l us,
             Forall2 (fun e u => exists d, e = JDict d /\ dict_get "url" d = Some u)
               l us ->
             Forall2 (fun e u => result (getitem e "url") = inr u) l us).
  { intros l us H. induction H as [|e u l us (d & -> & Hu) _ IH];
      constructor; [|exact IH].
    cbn [getitem]. now rewrite Hu. }
  split.
  - intros us H. unfold urls. now apply generate_all, Hstep.
  - intros pre d post us Hres Hpre Hd. unfold urls. rewrite Hres.
    apply generate_stops; [now apply Hstep|].
    cbn [getitem]. now rewrite Hd.
Qed.

(** ** Conversions without references *)

Lemma reference_free_loop (api api' : transport) (items : dict json) :
  (forall k v, In (k, v) items -> reference_free v = true ->
               exists x, _make_obj api v = (inr x, []) /\
                         _make_obj api' v = (inr x, [])) ->
  forallb (fun kv => reference_free (snd kv)) items = true ->
  forall data,
  exists data',
    APIMetadata_loop (_make_obj api) items data = (inr data', []) /\
    APIMetadata_loop (_make_obj api') items data = (inr data', []).
Proof.
  induction items as [|[k v] rest IH]; intros Hf Hfree data.
  - now exists data.
  - cbn [forallb snd] in Hfree. apply andb_true_iff in Hfree as [Hv Hrest].
    assert (IH' : forall data0,
               exists data',
                 APIMetadata_loop (_make_obj api) rest data0 = (inr data', []) /\
                 APIMetadata_loop (_make_obj api') rest data0 = (inr data', [])).
    { apply IH; [|exact Hrest]. intros k' v' Hin. apply (Hf k'). now right. }
    cbn [APIMetadata_loop].
    destruct v; try apply IH'.
    destruct (Hf k (JDict d) (or_introl eq_refl) Hv) as (x & -> & ->).
    destruct (IH' (dict_set k x data)) as (data' & H1 & H2).
    exists data'. now rewrite !bind_value, H1, H2.
Qed.

(** X9: a raw value in which no dict that the converter reaches has a
    [url] is converted without a call and without an exception, to the same
    value whatever the transport layer is. *)
Theorem conversion_without_references (api api' : transport) (d : json) :
  reference_free d = true ->
  exists v,
    _make_obj api d = (inr v, []) /\ _make_obj api' d = (inr v, []).
Proof.
  induction d as [| | | | |l IH|kvs IH] using json_ind; intros Hfree;
    try (eexists; split; reflexivity).
  cbn [reference_free] in Hfree. apply andb_true_iff in Hfree as [Hurl Hfree].
  apply negb_true_iff in Hurl. cbn [_make_obj]. rewrite Hurl.
  destruct (reference_free_loop api api' kvs) with (data := of_json_dict kvs)
    as (data' & H1 & H2); [|exact Hfree|].
  - intros k v Hin.
    clear - IH Hin. induction IH as [|kv Pkv rest _ IHrest]; [contradiction|].
    destruct Hin as [->|Hin]; [|now apply IHrest].
    now inversion Pkv.
  - rewrite H1, H2. eexists. split; reflexivity.
Qed.

Lemma conversion_without_references_witness :
  exists v,
    _make_obj demo (JDict [("rate", JInt 5);
                           ("version", JDict [("name", JStr "red")])])
    = (inr v, []) /\
    _make_obj gappy (JDict [("rate", JInt 5);
                            ("version", JDict [("name", JStr "red")])])
    = (inr v, []).
Proof.
  now apply (conversion_without_references demo gappy).
Defined.

Lemma urls_in_listing_order_witness :
  urls {| listing_name := "berry";
          results := [entry "chesto" "http://pokeapi.co/api/v2/berry/2/";
                      JDict [("name", JStr "cheri")]];
          count := JInt 2 |}
  = {| yielded := [JStr "http://pokeapi.co/api/v2/berry/2/"];
       stopped := Some (KeyError "url") |}.
Proof.
  destruct (urls_in_listing_order
              {| listing_name := "berry";
                 results := [entry "chesto" "http://pokeapi.co/api/v2/berry/2/";
                             JDict [("name", JStr "cheri")]];
                 count := JInt 2 |}) as [_ Hstop].
  apply (Hstop [entry "chesto" "http://pokeapi.co/api/v2/berry/2/"]
           [("name", JStr "cheri")] []); [reflexivity| |reflexivity].
  repeat constructor. eexists. split; reflexivity.
Defined.

(** ** Conversions never load *)

Lemma of_json_unloaded (j : json) : unloaded_refs (of_json j) = true.
Proof.
  induction j as [| | | | |l IH|d IH] using json_ind; try reflexivity.
  - cbn [of_json unloaded_refs].
    induction IH as [|a Pa l _ IHl]; [reflexivity|].
    cbn [map forallb]. now rewrite Pa, IHl.
  - cbn [of_json unloaded_refs].
    induction IH as [|kv Pkv d0 _ IHd]; [reflexivity|].
    cbn [map forallb snd]. rewrite IHd.
    inversion Pkv; subst. cbn [snd]. now rewrite andb_true_r.
Qed.

Lemma of_json_dict_unloaded (d : dict json) :
  forallb (fun kv => unloaded_refs (snd kv)) (of_json_dict d) = true.
Proof. exact (of_json_unloaded (JDict d)). Qed.

Lemma forallb_dict_set {V : Type} (P : V -> bool) (k : string) (x : V)
  (d : dict V) :
  P x = true -> forallb (fun kv => P (snd kv)) d = true ->
  forallb (fun kv => P (snd kv)) (dict_set k x d) = true.
Proof.
  intros Hx. induction d as [|[k' v'] d IH]; cbn [dict_set forallb snd].
  - now rewrite Hx.
  - intros H. apply andb_true_iff in H as [Hv Hd].
    destruct (String.eqb k k'); cbn [forallb snd].
    + now rewrite Hx, Hd.
    + now rewrite Hv, IH.
Qed.

Lemma forallb_dict_update {V : Type} (P : V -> bool) (d other : dict V) :
  forallb (fun kv => P (snd kv)) d = true ->
  forallb (fun kv => P (snd kv)) other = true ->
  forallb (fun kv => P (snd kv)) (dict_update d other) = true.
Proof.
  revert d. unfold dict_update.
  induction other as [|[k v] other IH]; intros d Hd Ho; [exact Hd|].
  cbn [forallb snd] in Ho. apply andb_true_iff in Ho as [Hv Ho].
  cbn [fold_left fst snd]. apply IH; [|exact Ho].
  now apply forallb_dict_set.
Qed.

Section NeverLoads.

Variable api : transport.

Lemma id_loop_unloaded (entries : list json) (id_ v : value) :
  result (_convert_id_to_name_loop entries id_) = inr v ->
  unloaded_refs v = true.
Proof.
  induction entries as [|e rest IH]; [now intros [= <-]|].
  cbn [_convert_id_to_name_loop]. intros H.
  apply bind_result_inv in H as (url & _ & H).
  apply bind_result_inv in H as (segs & _ & H).
  apply bind_result_inv in H as (seg & _ & H).
  apply bind_result_inv in H as (s & _ & H).
  destruct (String.eqb seg s); [|now apply IH].
  apply bind_result_inv in H as (name & _ & H).
  injection H as <-. apply of_json_unloaded.
Qed.

Lemma name_loop_unloaded (entries : list json) (name : string) (v : value) :
  result (_convert_name_to_id_loop entries name) = inr v ->
  unloaded_refs v = true.
Proof.
  induction entries as [|e rest IH]; [now intros [= <-]|].
  cbn [_convert_name_to_id_loop]. intros H.
  apply bind_result_inv in H as (n & _ & H).
  destruct (eq_str n name); [|now apply IH].
  apply bind_result_inv in H as (url & _ & H).
  apply bind_result_inv in H as (segs & _ & H).
  apply bind_result_inv in H as (seg & _ & H).
  apply bind_result_inv in H as (z & _ & H).
  now injection H as <-.
Qed.

Lemma name_id_convert_unloaded (resource_type : string)
  (name_or_id name id_ : value) :
  result (name_id_convert api resource_type name_or_id) = inr (name, id_) ->
  unloaded_refs name = true /\ unloaded_refs id_ = true.
Proof.
  unfold name_id_convert, _convert_id_to_name, _convert_name_to_id.
  destruct name_or_id; try discriminate; intros H;
    apply bind_result_inv in H as (x & H & Hret);
    injection Hret as <- <-;
    apply bind_result_inv in H as (index & _ & H).
  - split; [|reflexivity]. exact (id_loop_unloaded _ _ _ H).
  - split; [|reflexivity]. exact (id_loop_unloaded _ _ _ H).
  - split; [reflexivity|]. exact (name_loop_unloaded _ _ _ H).
Qed.

Lemma lazy_construction_unloaded (resource_type : string)
  (resource_name v : value) :
  result (NamedAPIResource_lazy api resource_type resource_name) = inr v ->
  unloaded_refs v = true.
Proof.
  rewrite NamedAPIResource_lazy_eq.
  destruct (NamedAPIResource api resource_type resource_name true)
    as [[e|w] t] eqn:Hnew; [discriminate|].
  intros [= ->].
  assert (Hshape : exists self, v = VResource self).
  { unfold NamedAPIResource, new in Hnew.
    destruct (__init__ api resource_type resource_name true [])
      as [[[e|u] self] t']; [discriminate|].
    injection Hnew as <- _. now exists self. }
  destruct Hshape as [self ->].
  apply lazy_construction_inv in Hnew as (name & id_ & s & Hc & _ & ->).
  destruct (name_id_convert_unloaded resource_type resource_name name id_)
    as [Hname Hid]; [now rewrite Hc|].
  cbn. now rewrite Hname, Hid.
Qed.

Lemma APIMetadata_loop_unloaded (f : json -> M value) (items : dict json) :
  (forall k v x, In (k, v) items -> result (f v) = inr x ->
                 unloaded_refs x = true) ->
  forall data data',
    forallb (fun kv => unloaded_refs (snd kv)) data = true ->
    result (APIMetadata_loop f items data) = inr data' ->
    forallb (fun kv => unloaded_refs (snd kv)) data' = true.
Proof.
  induction items as [|[k v] rest IH]; intros Hf data data' Hdata H.
  - now injection H as <-.
  - assert (IH' : forall data0,
               forallb (fun kv => unloaded_refs (snd kv)) data0 = true ->
               result (APIMetadata_loop f rest data0) = inr data' ->
               forallb (fun kv => unloaded_refs (snd kv)) data' = true).
    { intros data0. apply IH. intros k' v' x Hin. apply (Hf k'). now right. }
    cbn [APIMetadata_loop] in H.
    destruct v; try (now apply (IH' data)).
    apply bind_result_inv in H as (x & Hx & H).
    apply (IH' (dict_set k x data)); [|exact H].
    apply forallb_dict_set; [|exact Hdata].
    apply (Hf k (JDict d)); [now left|exact Hx].
Qed.

Lemma mapM_unloaded (f : json -> M value) (l : list json) (xs : list value) :
  (forall j x, result (f j) = inr x -> unloaded_refs x = true) ->
  result (mapM f l) = inr xs -> forallb unloaded_refs xs = true.
Proof.
  intros Hf H. apply mapM_Forall2 in H.
  induction H as [|j x l xs Hjx _ IH]; [reflexivity|].
  cbn [forallb]. now rewrite (Hf j x Hjx), IH.
Qed.

Lemma _load_loop_unloaded (f : json -> M value) (items : dict json) :
  (forall j x, result (f j) = inr x -> unloaded_refs x = true) ->
  forall data data',
    forallb (fun kv => unloaded_refs (snd kv)) data = true ->
    result (_load_loop f items data) = inr data' ->
    forallb (fun kv => unloaded_refs (snd kv)) data' = true.
Proof.
  intros Hf. induction items as [|[k v] rest IH]; intros data data' Hdata H.
  - now injection H as <-.
  - cbn [_load_loop] in H.
    destruct v; try (now apply (IH data)).
    + apply bind_result_inv in H as (xs & Hxs & H).
      apply (IH (dict_set k (VList xs) data)); [|exact H].
      apply forallb_dict_set; [|exact Hdata].
      cbn [unloaded_refs]. now apply (mapM_unloaded f l).
    + apply bind_result_inv in H as (x & Hx & H).
      apply (IH (dict_set k x data)); [|exact H].
      apply forallb_dict_set; [|exact Hdata]. now apply (Hf (JDict d)).
Qed.

Lemma make_obj_unloaded (d : json) (v : value) :
  result (_make_obj api d) = inr v -> unloaded_refs v = true.
Proof.
  revert v.
  induction d as [| | | | |l IH|kvs IH] using json_ind; intros v;
    try (cbn [_make_obj result ret fst]; intros [= <-];
         first [reflexivity|exact (of_json_unloaded (JList l))]).
  cbn [_make_obj]. destruct (dict_has "url" kvs).
  - intros H.
    apply bind_result_inv in H as (url & _ & H).
    apply bind_result_inv in H as (segs & _ & H).
    apply bind_result_inv in H as (id_ & _ & H).
    apply bind_result_inv in H as (segs' & _ & H).
    apply bind_result_inv in H as (location & _ & H).
    exact (lazy_construction_unloaded _ _ _ H).
  - intros H. apply bind_result_inv in H as (data & Hdata & H).
    injection H as <-. cbn [unloaded_refs].
    apply forallb_dict_update; [reflexivity|].
    apply (APIMetadata_loop_unloaded (_make_obj api) kvs) with
      (data := of_json_dict kvs); [|apply of_json_dict_unloaded|exact Hdata].
    intros k v x Hin.
    clear - IH Hin. induction IH as [|kv Pkv rest _ IHrest]; [contradiction|].
    destruct Hin as [->|Hin]; [|now apply IHrest].
    inversion Pkv; subst. auto.
Qed.

(** X10: whatever [_make_obj] returns, every instance of
    [NamedAPIResource] in it has its flag [False], and no payload was
    fetched for it; a load that completes leaves an instance whose fields
    hold such values only, when they did before: loading one instance never
    loads another. *)
Theorem conversions_never_load :
  (forall d v,
      result (_make_obj api d) = inr v ->
      unloaded_refs v = true /\ quiet (calls (_make_obj api d))) /\
  (forall self self' t,
      forallb (fun kv => unloaded_refs (snd kv)) self = true ->
      _load api self = (inr tt, self', t) ->
      forallb (fun kv => unloaded_refs (snd kv)) self' = true /\
      get_data_calls t <= 1).
Proof.
  split.
  - intros d v H. split; [now apply (make_obj_unloaded d)|apply quiet_make_obj].
  - intros self self' t Hself Hload. split.
    + unfold _load, obj_bind in Hload.
      destruct (self_attr "resource_type" self) as [[[e1|rt] s1] t1] eqn:E1;
        [discriminate|].
      rewrite (reads_self_attr _ _ _ _ _ E1) in Hload.
      destruct (self_attr "id_" self) as [[[e2|id_] s2] t2] eqn:E2;
        [discriminate|].
      rewrite (reads_self_attr _ _ _ _ _ E2) in Hload.
      unfold lift, modify in Hload.
      destruct (call_get_data api rt id_) as [[e3|data] t3]; [discriminate|].
      cbn [fst snd] in Hload.
      destruct (items_method data) as [[e4|items] t4]; [discriminate|].
      cbn [fst snd] in Hload.
      destruct (_load_loop (_make_obj api) items (of_json_dict items))
        as [[e5|fields] t5] eqn:E5; [discriminate|].
      cbn [fst snd] in Hload. injection Hload as <- _.
      apply forallb_dict_update; [exact Hself|].
      apply (_load_loop_unloaded (_make_obj api) items make_obj_unloaded
               (of_json_dict items)); [apply of_json_dict_unloaded|].
      now rewrite E5.
    + pose proof (load_calls_get_data_once api self) as H.
      now rewrite Hload in H.
Qed.

End NeverLoads.

Lemma conversions_never_load_witness :
  exists self' t,
    _load demo (berry_instance "cheri" 1) = (inr tt, self', t) /\
    forallb (fun kv => unloaded_refs (snd kv)) self' = true /\
    dict_get "firmness" self' = Some soft_instance.
Proof.
  destruct (conversions_never_load demo) as [_ Hload].
  do 2 eexists. split; [reflexivity|]. split; [|reflexivity].
  now apply (Hload (berry_instance "cheri" 1) _ _ eq_refl eq_refl).
Defined.

(** ** Rendering, eager construction and repeated access *)

Section Lifecycle.

Variable api : transport.

Lemma resolver_keeps_string (resource_type s : string) (name id_ : value)
  (t : trace) :
  name_id_convert api resource_type (VStr s) = (inr (name, id_), t) ->
  name = VStr s.
Proof.
  unfold name_id_convert.
  destruct (_convert_name_to_id api resource_type s) as [[e|v] t'];
    [discriminate|].
  rewrite bind_value. now intros [= <- _ _].
Qed.

(** X11: on an instance constructed lazily, string and display conversion
    read the construction fields: [str] renders the name, [repr] renders
    [<resource_type-name>], nobody is called and the instance is not
    loaded.  The name of an instance constructed from a string is that
    string. *)
Theorem rendering_does_not_load (resource_type : string)
  (resource_name : value) (self : dict value) (t : trace) :
  NamedAPIResource api resource_type resource_name true
  = (inr (VResource self), t) ->
  exists name,
    dict_get "name" self = Some name /\
    (forall s, resource_name = VStr s -> name = VStr s) /\
    (forall r,
        py_str name = Some r ->
        __str__ api self = (inr r, self, []) /\
        __repr__ api self
        = (inr ("<" ++ resource_type ++ "-" ++ r ++ ">")%string, self, [])).
Proof.
  intros Hnew.
  apply lazy_construction_inv in Hnew as (name & id_ & s & Hc & _ & ->).
  exists name. split; [reflexivity|]. split.
  - intros s' ->. exact (resolver_keeps_string _ _ _ _ _ Hc).
  - intros r Hr. unfold __str__, __repr__, obj_bind, lift, obj_ret, str_.
    cbn [getattr __getattribute__ mem existsb data_descriptors String.eqb
         Ascii.eqb Bool.eqb orb fresh_instance dict_get fst snd py_str
         or_raise ret app].
    rewrite Hr. now split.
Qed.

Lemma lazy_fields_inv (resource_type : string) (resource_name : value)
  (self : dict value) (t : trace) :
  NamedAPIResource api resource_type resource_name true
  = (inr (VResource self), t) ->
  __init__fields api resource_type resource_name [] = (inr tt, self, t).
Proof.
  unfold NamedAPIResource, new, __init__, obj_bind, obj_ret. cbn [negb].
  destruct (__init__fields api resource_type resource_name [])
    as [[[e|[]] s] t']; [discriminate|].
  rewrite app_nil_r. now intros [= <- <-].
Qed.

(** X12: an eager construction is the lazy one followed by a load: it
    raises what the load raises, and else yields the lazy instance, loaded,
    with the flag set, which is the instance that the first access to a
    missing field leaves behind. *)
Theorem eager_is_lazy_then_load (resource_type : string)
  (resource_name : value) (self : dict value) (t : trace) :
  NamedAPIResource api resource_type resource_name true
  = (inr (VResource self), t) ->
  NamedAPIResource api resource_type resource_name false
  = match _load api self with
    | (inl e, _, t') => (inl e, t ++ t')
    | (inr _, s, t') =>
        (inr (VResource (dict_set __loaded (VBool true) s)), t ++ t')
    end /\
  (forall attr s t',
      dict_get attr self = None -> resolved_by_class attr = false ->
      _load api self = (inr tt, s, t') ->
      exists r,
        getattr api attr self = (r, dict_set __loaded (VBool true) s, t')).
Proof.
  intros Hnew. pose proof (lazy_fields_inv _ _ _ _ Hnew) as Hfields.
  apply lazy_construction_inv in Hnew as (name & id_ & s0 & _ & _ & Hself).
  assert (Hmethod : dict_get "_load" self = None) by now subst self.
  assert (Hflag : dict_get __loaded self = Some (VBool false))
    by now subst self.
  split.
  - unfold NamedAPIResource, new, __init__, obj_bind, modify, method_of.
    rewrite Hfields. cbn [negb]. rewrite Hmethod.
    destruct (_load api self) as [[[e|[]] s] t'];
      [reflexivity|now rewrite app_nil_r].
  - intros attr s t' Hattr Hclass Hload.
    rewrite (getattr_unloaded_miss api self (VBool false) attr Hattr Hclass
               Hflag eq_refl Hmethod).
    rewrite Hload. cbv zeta. now eexists.
Qed.

(** X13: a load that completes keeps every field that the payload does not
    name, and gives every field that the payload names its converted
    payload value, construction fields included. *)
Theorem load_keeps_other_fields (self : dict value) (resource_type id_ : value)
  (data : dict json) (self' : dict value) (t : trace) :
  dict_get "resource_type" self = Some resource_type ->
  dict_get "id_" self = Some id_ ->
  get_data api resource_type id_ = inr (JDict data) ->
  NoDup (keys data) ->
  _load api self = (inr tt, self', t) ->
  (forall k, ~ In k (keys data) -> dict_get k self' = dict_get k self) /\
  (forall k v,
      In (k, v) data ->
      exists x, result (loaded_field (_make_obj api) v) = inr x /\
                dict_get k self' = Some x).
Proof.
  intros Hrt Hid Hdata Hnd Hload.
  rewrite (_load_fields api self resource_type id_ data Hrt Hid Hdata Hnd)
    in Hload.
  destruct (result (map_fields (loaded_field (_make_obj api)) data))
    as [e|fields] eqn:Hf; [discriminate|].
  injection Hload as <- _.
  pose proof (map_fields_keys _ _ _ Hf) as Hkeys.
  split.
  - intros k Hk. apply dict_get_update_other.
    apply dict_get_none. now rewrite Hkeys.
  - intros k v Hin.
    destruct (map_fields_in _ _ _ _ _ Hf Hin) as (x & Hx & Hinx).
    exists x. split; [exact Hx|].
    apply dict_get_update; [now rewrite Hkeys|].
    apply dict_get_in; [now rewrite Hkeys|exact Hinx].
Qed.

(** X14: on an instance whose load completes, a run of attribute accesses
    loads at most once: the run either finds every name and leaves the
    instance as it was, calling nobody, or makes the calls of one load, at
    the first name it does not find, and leaves the loaded instance. *)
Theorem one_load_per_run (self : dict value) (flag : value)
  (s1 : dict value) (t1 : trace) :
  dict_get __loaded self = Some flag -> truthy flag = false ->
  dict_get "_load" self = None ->
  _load api self = (inr tt, s1, t1) ->
  forall attrs,
  exists rs self' t,
    accesses api attrs self = (rs, self', t) /\
    ((self' = self /\ t = []) \/
     (self' = dict_set __loaded (VBool true) s1 /\ t = t1)) /\
    get_data_calls t <= 1.
Proof.
  intros Hflag Ht Hmethod Hload attrs.
  assert (Hone : get_data_calls t1 <= 1).
  { pose proof (load_calls_get_data_once api self) as H. now rewrite Hload in H. }
  induction attrs as [|attr rest (rs & self' & t & Hrest & Hcases & Hcount)].
  - exists [], self, []. repeat split; [now left|unfold get_data_calls; simpl; lia].
  - cbn [accesses]. unfold getattr at 1.
    destruct (__getattribute__ self attr) as [e|v] eqn:Hlook.
    + unfold __getattr__, obj_bind, self_attr, modify, method_of.
      rewrite Hflag. cbn beta iota. rewrite Ht. cbn beta iota delta [negb].
      rewrite Hmethod, Hload.
      set (s' := dict_set __loaded (VBool true) s1).
      assert (Hs' : dict_get __loaded s' = Some (VBool true))
        by apply dict_get_set_same.
      destruct (accesses_loaded api s' (VBool true) rest Hs' eq_refl)
        as [rs' Hrs'].
      cbn [app]. fold s'.
      destruct (dict_get "__getattribute__" s');
        rewrite Hrs', !app_nil_r; do 3 eexists;
        (split; [reflexivity|split; [right; split; reflexivity|exact Hone]]).
    + rewrite Hrest. cbn [app]. now exists (inr v :: rs), self', t.
Qed.

(** X15: a load that raises is tried again by every later access to a
    missing field: the instance is as it was, so each access makes the same
    calls and raises the same exception. *)
Theorem failed_load_is_retried (self : dict value) (flag : value)
  (attr : string) (e : exn) (self' : dict value) (t : trace) :
  dict_get attr self = None -> resolved_by_class attr = false ->
  dict_get __loaded self = Some flag -> truthy flag = false ->
  dict_get "_load" self = None ->
  _load api self = (inl e, self', t) ->
  forall n,
    accesses api (repeat attr n) self
    = (repeat (inl e) n, self, concat (repeat t n)).
Proof.
  intros Hattr Hclass Hflag Ht Hmethod Hload.
  pose proof (fails_clean_load api _ _ _ _ Hload) as ->.
  assert (Hget : getattr api attr self = (inl e, self, t)).
  { rewrite (getattr_unloaded_miss api self flag attr Hattr Hclass Hflag Ht
               Hmethod).
    now rewrite Hload. }
  induction n as [|n IH]; [reflexivity|].
  cbn [repeat accesses concat]. now rewrite Hget, IH.
Qed.

(** X16: the first access to a field of the payload, on an instance that
    is not loaded, returns the converted field; from then on the fields of
    the payload are found on the instance, and an access to one calls
    nobody.  (The three names that the class answers for first cannot be
    reached this way.) *)
Theorem payload_fields_become_attributes (self : dict value)
  (flag resource_type id_ : value) (data : dict json) (fields : dict value) :
  dict_get __loaded self = Some flag -> truthy flag = false ->
  dict_get "_load" self = None ->
  dict_get "__getattribute__" self = None ->
  dict_get "resource_type" self = Some resource_type ->
  dict_get "id_" self = Some id_ ->
  get_data api resource_type id_ = inr (JDict data) ->
  NoDup (keys data) -> ~ In "__getattribute__" (keys data) ->
  result (map_fields (loaded_field (_make_obj api)) data) = inr fields ->
  forall k x,
    In (k, x) fields -> k <> __loaded -> resolved_by_class k = false ->
    let loaded := dict_set __loaded (VBool true) (dict_update self fields) in
    (dict_get k self = None ->
     getattr api k self
     = (inr x, loaded,
        Call_get_data resource_type id_
          :: calls (map_fields (loaded_field (_make_obj api)) data))) /\
    getattr api k loaded = (inr x, loaded, []).
Proof.
  intros Hflag Ht Hmethod Hhide Hrt Hid Hdata Hnd Hnohide Hf k x Hin Hk Hclass
    loaded.
  pose proof (map_fields_keys _ _ _ Hf) as Hkeys.
  assert (Hload : _load api self
                  = (inr tt, dict_update self fields,
                     Call_get_data resource_type id_
                       :: calls (map_fields (loaded_field (_make_obj api)) data))).
  { rewrite (_load_fields api self resource_type id_ data Hrt Hid Hdata Hnd).
    now rewrite Hf. }
  assert (Hx : dict_get k loaded = Some x).
  { unfold loaded. rewrite dict_get_set_other by exact Hk.
    apply dict_get_update; [now rewrite Hkeys|].
    apply dict_get_in; [now rewrite Hkeys|exact Hin]. }
  assert (Hdescr : mem k data_descriptors = false).
  { unfold resolved_by_class in Hclass. now apply orb_false_iff in Hclass. }
  split.
  - intros Hmiss.
    rewrite (getattr_unloaded_miss api self flag k Hmiss Hclass Hflag Ht Hmethod).
    rewrite Hload. cbv zeta. fold loaded.
    assert (Hkeep : dict_get "__getattribute__" loaded = None).
    { unfold loaded. rewrite dict_get_set_other by discriminate.
      rewrite dict_get_update_other; [exact Hhide|].
      apply dict_get_none. now rewrite Hkeys. }
    now rewrite Hkeep, Hx.
  - unfold getattr. now rewrite (getattribute_hit loaded k x Hx Hdescr).
Qed.

End Lifecycle.

Lemma rendering_does_not_load_witness :
  __str__ demo (berry_instance "chesto" 2)
  = (inr "chesto", berry_instance "chesto" 2, []) /\
  __repr__ demo (berry_instance "chesto" 2)
  = (inr "<berry-chesto>", berry_instance "chesto" 2, []).
Proof.
  destruct (rendering_does_not_load demo "berry" (VStr "chesto")
              (berry_instance "chesto" 2) [Call_get_resource "berry"] eq_refl)
    as (name & Hname & _ & Hrender).
  injection Hname as <-. now apply Hrender.
Defined.

Lemma eager_is_lazy_then_load_witness :
  exists loaded,
    NamedAPIResource demo "berry" (VInt 1) false
    = (inr (VResource loaded),
       [Call_get_resource "berry";
        Call_get_data (VStr "berry") (VInt 1);
        Call_get_resource "berry-firmness"]) /\
    exists r,
      getattr demo "color" (berry_instance "cheri" 1)
      = (r, loaded,
         [Call_get_data (VStr "berry") (VInt 1);
          Call_get_resource "berry-firmness"]).
Proof.
  destruct (eager_is_lazy_then_load demo "berry" (VInt 1)
              (berry_instance "cheri" 1) [Call_get_resource "berry"] eq_refl)
    as [Heager Hmiss].
  eexists. split; [rewrite Heager; reflexivity|].
  apply (Hmiss "color"); reflexivity.
Defined.

Lemma load_keeps_other_fields_witness :
  exists self' t,
    _load demo (berry_instance "wrong" 1) = (inr tt, self', t) /\
    dict_get "url" self' = dict_get "url" (berry_instance "wrong" 1) /\
    dict_get "name" self' = Some (VStr "cheri").
Proof.
  assert (Hnd : NoDup (keys [("name", JStr "cheri");
                             ("firmness", soft_reference);
                             ("flavors", JList [JInt 1; JInt 2; JInt 3]);
                             ("natural_gift_power", JInt 60)])).
  { repeat constructor; simpl; intuition discriminate. }
  do 2 eexists. split; [reflexivity|].
  destruct (load_keeps_other_fields demo (berry_instance "wrong" 1)
              (VStr "berry") (VInt 1) _ _ _ eq_refl eq_refl eq_refl Hnd eq_refl)
    as [Hkeep Hgive].
  split.
  - apply Hkeep. simpl. intuition discriminate.
  - destruct (Hgive "name" (JStr "cheri")) as (x & Hx & ->); [now left|].
    now injection Hx as <-.
Defined.

Lemma one_load_per_run_witness :
  exists rs self' t,
    accesses demo ["name"; "flavors"; "color"; "firmness"]
      (berry_instance "cheri" 1) = (rs, self', t) /\
    get_data_calls t <= 1.
Proof.
  destruct (one_load_per_run demo (berry_instance "cheri" 1) (VBool false)
              _ _ eq_refl eq_refl eq_refl eq_refl
              ["name"; "flavors"; "color"; "firmness"])
    as (rs & self' & t & Hrun & _ & Hcount).
  now exists rs, self', t.
Defined.

Lemma failed_load_is_retried_witness :
  accesses demo ["firmness"; "firmness"] (berry_instance "chesto" 2)
  = ([inl IndexError; inl IndexError], berry_instance "chesto" 2,
     [Call_get_data (VStr "berry") (VInt 2);
      Call_get_resource "berry-firmness";
      Call_get_data (VStr "berry") (VInt 2);
      Call_get_resource "berry-firmness"]).
Proof.
  exact (failed_load_is_retried demo (berry_instance "chesto" 2) (VBool false)
           "firmness" IndexError _ _ eq_refl eq_refl eq_refl eq_refl eq_refl
           eq_refl 2).
Defined.

Lemma payload_fields_become_attributes_witness :
  exists loaded t,
    getattr demo "flavors" (berry_instance "cheri" 1)
    = (inr (VList [VInt 1; VInt 2; VInt 3]), loaded, t) /\
    getattr demo "flavors" loaded
    = (inr (VList [VInt 1; VInt 2; VInt 3]), loaded, []).
Proof.
  assert (Hnd : NoDup (keys [("name", JStr "cheri");
                             ("firmness", soft_reference);
                             ("flavors", JList [JInt 1; JInt 2; JInt 3]);
                             ("natural_gift_power", JInt 60)])).
  { repeat constructor; simpl; intuition discriminate. }
  destruct (payload_fields_become_attributes demo (berry_instance "cheri" 1)
              (VBool false) (VStr "berry") (VInt 1) _ _
              eq_refl eq_refl eq_refl eq_refl eq_refl eq_refl eq_refl Hnd
              ltac:(simpl; intuition discriminate) eq_refl
              "flavors" (VList [VInt 1; VInt 2; VInt 3]))
    as [Hfirst Hlater];
    [simpl; tauto|discriminate|reflexivity|].
  do 2 eexists. split; [apply Hfirst; reflexivity|exact Hlater].
Defined.

(** ** What an index and a metadata object need and keep *)

Section Shapes.

Variable api : transport.

(** X17: a category index is constructed exactly when the transport layer
    answers with a dict that has a [results] field that can be iterated and
    a [count] field; its entries are then the items of [results], and its
    count is [count].  A dict without [results] gives [KeyError] for
    [results], whether or not it has a [count]. *)
Theorem index_needs_results_and_count (name : string) :
  (forall index,
      result (APIResourceList api name) = inr index <->
      exists r raw,
        get_resource api name = inr (JDict r) /\
        dict_get "results" r = Some raw /\
        result (iterate raw) = inr (results index) /\
        dict_get "count" r = Some (count index) /\
        listing_name index = name) /\
  (forall r,
      get_resource api name = inr (JDict r) ->
      dict_get "results" r = None ->
      APIResourceList api name
      = (inl (KeyError "results"), [Call_get_resource name])).
Proof.
  split.
  - intros index. unfold APIResourceList, call_get_resource. split.
    + intros H.
      destruct (get_resource api name) as [e|response]; [discriminate|].
      rewrite bind_value in H. cbn [result fst] in H.
      apply bind_result_inv in H as (raw & Hraw & H).
      apply bind_result_inv in H as (entries & Hent & H).
      apply bind_result_inv in H as (n & Hn & H).
      injection H as <-.
      destruct response as [| | | | | |r]; try discriminate.
      cbn [getitem] in Hraw, Hn.
      destruct (dict_get "results" r) as [raw'|] eqn:Hr; [|discriminate].
      destruct (dict_get "count" r) as [n'|] eqn:Hc; [|discriminate].
      injection Hraw as ->. injection Hn as ->.
      exists r, raw. now repeat split.
    + intros (r & raw & Hget & Hraw & Hit & Hn & Hname).
      rewrite Hget, bind_value. cbn [getitem result fst]. rewrite Hraw.
      autorewrite with run.
      destruct (iterate raw) as [[e|entries] t]; [discriminate|].
      injection Hit as ->. rewrite bind_value. rewrite Hn.
      autorewrite with run. cbn [result fst ret]. subst name.
      now destruct index.
  - intros r Hget Hraw. unfold APIResourceList, call_get_resource.
    rewrite Hget, bind_value. cbn [getitem]. now rewrite Hraw.
Qed.

(** X18: the metadata object of a dict with distinct keys has the keys of
    the dict, in the order of the dict, and every field that is not a dict
    is the raw field. *)
Theorem metadata_keeps_keys_and_plain_fields (data : dict json) (v : value) :
  NoDup (keys data) ->
  result (APIMetadata api data) = inr v ->
  exists fields,
    v = VMeta fields /\
    keys fields = keys data /\
    (forall k x,
        In (k, x) data -> isinstance_dict x = false ->
        dict_get k fields = Some (of_json x)).
Proof.
  intros Hnd H. rewrite (APIMetadata_fields api data Hnd) in H.
  apply bind_result_inv in H as (fields & Hf & H). injection H as <-.
  pose proof (map_fields_keys _ _ _ Hf) as Hkeys.
  exists fields. split; [reflexivity|]. split; [exact Hkeys|].
  intros k x Hin Hx.
  destruct (map_fields_in _ _ _ _ _ Hf Hin) as (y & Hy & Hiny).
  rewrite (dict_get_in k y fields); [|now rewrite Hkeys|exact Hiny].
  destruct x; try discriminate Hx; cbn [metadata_field result ret fst] in Hy;
    now injection Hy as <-.
Qed.

End Shapes.

Lemma index_needs_results_and_count_witness :
  APIResourceList demo "berry"
  = (inr {| listing_name := "berry";
            results := [entry "cheri" "http://pokeapi.co/api/v2/berry/1/";
                        entry "chesto" "http://pokeapi.co/api/v2/berry/2/"];
            count := JInt 2 |},
     [Call_get_resource "berry"]) /\
  result (APIResourceList demo "pokemon") = inl (TransportError "404").
Proof.
  destruct (index_needs_results_and_count demo "berry") as [Hiff _].
  split; [|reflexivity].
  assert (H : result (APIResourceList demo "berry")
              = inr {| listing_name := "berry";
                       results := [entry "cheri" "http://pokeapi.co/api/v2/berry/1/";
                                   entry "chesto" "http://pokeapi.co/api/v2/berry/2/"];
                       count := JInt 2 |}).
  { apply Hiff. eexists. eexists. repeat split; reflexivity. }
  pose proof (calls_APIResourceList demo "berry") as Hcalls.
  destruct (APIResourceList demo "berry") as [r t].
  cbn [result calls fst snd] in *. now subst.
Defined.

Lemma metadata_keeps_keys_and_plain_fields_witness :
  exists fields,
    APIMetadata demo mixed_fields
    = (inr (VMeta fields), [Call_get_resource "berry-firmness"]) /\
    keys fields = ["firmness"; "flavors"] /\
    dict_get "flavors" fields = Some (VList [of_json soft_reference; VInt 3]).
Proof.
  assert (Hnd : NoDup (keys mixed_fields)).
  { repeat constructor; simpl; intuition discriminate. }
  destruct (metadata_keeps_keys_and_plain_fields demo mixed_fields
              (VMeta [("firmness", soft_instance);
                      ("flavors", VList [of_json soft_reference; VInt 3])])
              Hnd eq_refl) as (fields & Hv & Hkeys & Hplain).
  injection Hv as <-. eexists. split; [reflexivity|]. split; [exact Hkeys|].
  apply (Hplain "flavors" (JList [soft_reference; JInt 3]));
    [right; now left|reflexivity].
Defined.
